(** * Nova AI chatbot backend: the POST /api/chat pipeline

    A shallow embedding of the two Express servers of the repository
    (server2.js, lines 1-186, and the second server that follows it,
    lines 187-346) and the properties of their chat endpoint. *)

From Stdlib Require Import String Ascii List Bool ZArith QArith Lia.
From Stdlib Require DecimalString DecimalN DecimalPos DecimalFacts.
Import ListNotations.
Local Open Scope string_scope.
Local Open Scope list_scope.
Local Open Scope Z_scope.
Set Warnings "-register-all".

(** ** JavaScript values *)

(** A JS number is an IEEE double.  The handlers never compute with one:
    they test it for truthiness and print it.  A number is carried as these
    two observations ([num_truthy] is false for +0, -0 and NaN). *)
Record number : Type := mkNumber {
  num_truthy : bool;
  num_text : string
}.

(** Plain data values, as [JSON.parse] builds them (objects carry their own
    properties in an association list), plus [undefined]. *)
Inductive jsval : Type :=
| JUndefined
| JNull
| JBool (b : bool)
| JNum (n : number)
| JStr (s : string)
| JArr (elems : list jsval)
| JObj (props : list (string * jsval)).

Definition object : Type := list (string * jsval).

Fixpoint lookup (key : string) (o : object) : option jsval :=
  match o with
  | [] => None
  | (k, v) :: rest => if String.eqb k key then Some v else lookup key rest
  end.

Definition has_own (key : string) (o : object) : bool :=
  match lookup key o with Some _ => true | None => false end.

Definition nullish (v : jsval) : bool :=
  match v with
  | JUndefined | JNull => true
  | _ => false
  end.

(** [typeof v] *)
Definition typeof (v : jsval) : string :=
  match v with
  | JUndefined => "undefined"
  | JNull => "object"
  | JBool _ => "boolean"
  | JNum _ => "number"
  | JStr _ => "string"
  | JArr _ => "object"
  | JObj _ => "object"
  end.

(** ToBoolean: what [!v] and [v || w] test. *)
Definition truthy (v : jsval) : bool :=
  match v with
  | JUndefined => false
  | JNull => false
  | JBool b => b
  | JNum n => num_truthy n
  | JStr s => negb (String.eqb s EmptyString)
  | JArr _ => true
  | JObj _ => true
  end.

(** [v || w] *)
Definition js_or (v w : jsval) : jsval := if truthy v then v else w.

(** [v === s] for a string literal [s] *)
Definition strict_eq_string (v : jsval) (s : string) : bool :=
  match v with
  | JStr t => String.eqb t s
  | _ => false
  end.

(** The value a runtime [TypeError] is modelled by: an object with its
    message and no [code] property. *)
Definition TypeError (msg : string) : jsval :=
  JObj [("name", JStr "TypeError"); ("message", JStr msg)].

(** ** Events and the handler monad *)

Record chat_message : Type := mkMessage {
  role : string;
  content : jsval
}.

(** The argument of [openai.chat.completions.create]. *)
Record create_params : Type := mkParams {
  model : string;
  messages : list chat_message;
  max_tokens : Z;
  temperature : Q
}.

Inductive level : Type := Log | Warn | Error.

(** What a handler does besides answering: console output, and calls of the
    upstream completion interface (with the credential of the client that
    makes the call). *)
Inductive event : Type :=
| Console (lvl : level) (args : list jsval)
| Create (apiKey : string) (params : create_params).

(** A computation writes a trace of events and either throws a value
    ([inl]) or returns ([inr]). *)
Definition M (A : Type) : Type := (list event * (jsval + A))%type.

Definition ret {A} (a : A) : M A := ([], inr a).

Definition throw {A} (e : jsval) : M A := ([], inl e).

Definition bind {A B} (m : M A) (f : A -> M B) : M B :=
  match m with
  | (t, inl e) => (t, inl e)
  | (t, inr a) =>
      match f a with
      | (t', r) => (t ++ t', r)
      end
  end.

(** [try { m } catch (error) { h error }] *)
Definition try_catch {A} (m : M A) (h : jsval -> M A) : M A :=
  match m with
  | (t, inl e) =>
      match h e with
      | (t', r) => (t ++ t', r)
      end
  | (t, inr a) => (t, inr a)
  end.

Definition emit (e : event) : M unit := ([e], inr tt).

Notation "x <- m ;; k" := (bind m (fun x => k))
  (at level 61, m at next level, right associativity).
Notation "m ;; k" := (bind m (fun _ => k))
  (at level 61, right associativity).

Definition console_log (args : list jsval) : M unit := emit (Console Log args).
Definition console_warn (args : list jsval) : M unit := emit (Console Warn args).
Definition console_error (args : list jsval) : M unit := emit (Console Error args).

(** ** Property access and string conversion *)

(** The own property [key] of a value that is not [undefined] or [null]:
    an object gives the property it holds, every other value gives
    [undefined].  [key] ranges over the names that no prototype defines (the
    handlers read [message], [choices], [content], [usage], [total_tokens]
    and [code]). *)
Definition own (v : jsval) (key : string) : jsval :=
  match v with
  | JObj o => match lookup key o with Some x => x | None => JUndefined end
  | _ => JUndefined
  end.

(** [v.key]: reading from [undefined] or [null] throws. *)
Definition Get (v : jsval) (key : string) : M jsval :=
  match v with
  | JUndefined => throw (TypeError ("Cannot read properties of undefined (reading '" ++ key ++ "')"))
  | JNull => throw (TypeError ("Cannot read properties of null (reading '" ++ key ++ "')"))
  | _ => ret (own v key)
  end.

(** [v[0]]: the first element of an array, the property ["0"] of an object,
    the first character of a string. *)
Definition Get0 (v : jsval) : M jsval :=
  match v with
  | JUndefined => throw (TypeError "Cannot read properties of undefined (reading '0')")
  | JNull => throw (TypeError "Cannot read properties of null (reading '0')")
  | JArr l => ret (nth 0 l JUndefined)
  | JObj o => ret (match lookup "0" o with Some x => x | None => JUndefined end)
  | JStr s => ret (match s with EmptyString => JUndefined | String c _ => JStr (String c EmptyString) end)
  | _ => ret JUndefined
  end.

(** [v?.key] *)
Definition GetOpt (v : jsval) (key : string) : M jsval :=
  if nullish v then ret JUndefined else Get v key.

(** ToString, as a template literal applies it to a substitution.  A
    primitive prints; an array joins its elements with commas
    ([Array.prototype.join]: [undefined] and [null] elements print as
    nothing); an object without a [toString] of its own prints through
    [Object.prototype.toString]; an object whose own [toString] property
    shadows the inherited method has no way to a primitive (a data property
    is not callable, and [valueOf] gives the object back or is shadowed as
    well), and the conversion throws a TypeError. *)
Fixpoint ToString (v : jsval) : jsval + string :=
  match v with
  | JUndefined => inr "undefined"
  | JNull => inr "null"
  | JBool true => inr "true"
  | JBool false => inr "false"
  | JNum n => inr (num_text n)
  | JStr s => inr s
  | JArr l =>
      let fix join (l : list jsval) : jsval + list string :=
        match l with
        | [] => inr []
        | x :: rest =>
            match (if nullish x then inr EmptyString else ToString x) with
            | inl e => inl e
            | inr s =>
                match join rest with
                | inl e => inl e
                | inr ss => inr (s :: ss)
                end
            end
        end in
      match join l with
      | inl e => inl e
      | inr ss => inr (String.concat "," ss)
      end
  | JObj o =>
      if has_own "toString" o
      then inl (TypeError "Cannot convert object to primitive value")
      else inr "[object Object]"
  end.

(** A template substitution [${v}] inside a computation. *)
Definition subst (v : jsval) : M string :=
  match ToString v with
  | inl e => throw e
  | inr s => ret s
  end.

(** ['='.repeat(80)] and the like *)
Fixpoint repeat_string (s : string) (n : nat) : string :=
  match n with
  | O => EmptyString
  | S k => s ++ repeat_string s k
  end.

Definition dq : string := String "034" EmptyString.
Definition nl : string := String "010" EmptyString.

(** ** The environment of a request *)

(** How an awaited promise settles. *)
Inductive settled : Type :=
| Fulfilled (value : jsval)
| Rejected (reason : jsval).

(** [require('openai')]: the package is missing and [require] throws an
    [Error] with a message, or it gives the client class, whose instances
    (made with [new OpenAI({ apiKey })]) answer
    [chat.completions.create(params)] with a promise. *)
Inductive load_result : Type :=
| ModuleNotFound (message : string)
| Module (create : string -> create_params -> settled).

Record env : Type := mkEnv {
  require_openai : load_result;
  OPENAI_API_KEY : option string;   (* process.env.OPENAI_API_KEY *)
  toISOString_now : string          (* new Date().toISOString() *)
}.

Record request : Type := mkRequest {
  body : jsval;                     (* req.body *)
  ip : option string;               (* req.ip *)
  remoteAddress : option string     (* req.connection.remoteAddress *)
}.

Definition of_option (o : option string) : jsval :=
  match o with
  | Some s => JStr s
  | None => JUndefined
  end.

(** [await p] *)
Definition await (p : settled) : M jsval :=
  match p with
  | Fulfilled v => ret v
  | Rejected e => throw e
  end.

(** [await openai.chat.completions.create(params)] on a client made with
    [apiKey]. *)
Definition completions_create (create : string -> create_params -> settled)
    (apiKey : string) (params : create_params) : M jsval :=
  emit (Create apiKey params) ;;
  await (create apiKey params).

(** [completion.choices[0].message.content] *)
Definition first_content (completion : jsval) : M jsval :=
  choices <- Get completion "choices" ;;
  choice <- Get0 choices ;;
  choice_message <- Get choice "message" ;;
  Get choice_message "content".

(** [completion.usage?.total_tokens] *)
Definition usage_total_tokens (completion : jsval) : M jsval :=
  usage <- Get completion "usage" ;;
  GetOpt usage "total_tokens".

(** ** Responses *)

Record response : Type := mkResponse {
  status : Z;
  json : object
}.

(** [JSON.stringify] on the object literal of a body: the properties whose
    value is [undefined] are left out.  The values that stay are carried as
    they are.  What [JSON.stringify] does inside a value (it writes NaN, the
    infinities and [undefined] array elements as [null], and leaves out
    [undefined] properties at every depth) is not modelled: [json_stable],
    below, tells the values that it sends unchanged. *)
Fixpoint stringify_props (o : object) : object :=
  match o with
  | [] => []
  | (k, v) :: rest =>
      match v with
      | JUndefined => stringify_props rest
      | _ => (k, v) :: stringify_props rest
      end
  end.

(** [res.status(code).json(obj)] *)
Definition res_status_json (code : Z) (obj : object) : response :=
  {| status := code; json := stringify_props obj |}.

(** [res.json(obj)]: the status stays at its default. *)
Definition res_json (obj : object) : response := res_status_json 200 obj.

Definition has_field (key : string) (r : response) : bool := has_own key (json r).

(** ** server2.js, lines 1-186 *)

Module Server2.

Definition systemPrompt : string :=
"You are Nova AI Assistant, a helpful AI assistant for Nova AI Solutions, a company specializing in enterprise AI solutions, IoT integration, and solar technology. 

Your role is to:
1. Help users understand our AI, IoT, and Solar solutions
2. Provide information about our services and capabilities
3. Answer questions about artificial intelligence, machine learning, IoT devices, and renewable energy
4. Guide users to contact our team for detailed consultations
5. Be professional, knowledgeable, and helpful

Key information about Nova AI Solutions:
- We provide custom AI solutions for enterprise businesses
- We offer IoT integration services and smart device management
- We develop solar technology and sustainable energy solutions
- We help businesses automate operations and improve efficiency
- We offer consultation and implementation services

Always be helpful and direct users to our contact page (contact-us.html) for detailed consultations or project discussions.".

(** The [try] block of the chat handler, lines 48-136 *)
Definition chat_try (e : env) (req : request) : M response :=
  message <- Get (body req) "message" ;;
  let timestamp := toISOString_now e in
  let clientIP := js_or (of_option (ip req)) (of_option (remoteAddress req)) in
  console_log [JStr (nl ++ repeat_string "=" 80)] ;;
  console_log [JStr ("📨 INCOMING MESSAGE [" ++ timestamp ++ "]")] ;;
  clientIP_s <- subst clientIP ;;
  console_log [JStr ("🌐 Client IP: " ++ clientIP_s)] ;;
  message_s <- subst message ;;
  console_log [JStr ("💬 User Message: " ++ dq ++ message_s ++ dq)] ;;
  console_log [JStr (repeat_string "=" 80)] ;;
  if negb (truthy message) || negb (String.eqb (typeof message) "string") then
    console_log [JStr "❌ ERROR: Invalid message format"] ;;
    ret (res_status_json 400
           [("error", JStr "Message is required and must be a string")])
  else
    match require_openai e with
    | ModuleNotFound error_message =>
        console_error [JStr "❌ OpenAI package not installed:"; JStr error_message] ;;
        let fallbackResponse := "I'm currently unavailable. Please contact our support team directly for assistance with AI, IoT, or Solar solutions." in
        console_log [JStr ("🤖 Bot Response: " ++ dq ++ fallbackResponse ++ dq)] ;;
        console_log [JStr (repeat_string "=" 80 ++ nl)] ;;
        ret (res_json [("response", JStr fallbackResponse)])
    | Module create =>
        if negb (truthy (of_option (OPENAI_API_KEY e))) then
          console_warn [JStr "⚠️  OpenAI API key not configured"] ;;
          let maintenanceResponse := "I'm currently in maintenance mode. Please contact our support team directly for assistance with AI, IoT, or Solar solutions." in
          console_log [JStr ("🤖 Bot Response: " ++ dq ++ maintenanceResponse ++ dq)] ;;
          console_log [JStr (repeat_string "=" 80 ++ nl)] ;;
          ret (res_json [("response", JStr maintenanceResponse)])
        else
          let apiKey := match OPENAI_API_KEY e with Some k => k | None => EmptyString end in
          console_log [JStr "🔄 Processing message with OpenAI..."] ;;
          completion <- completions_create create apiKey
            {| model := "gpt-3.5-turbo";
               messages := [ {| role := "system"; content := JStr systemPrompt |};
                             {| role := "user"; content := message |} ];
               max_tokens := 500;
               temperature := 7 # 10 |} ;;
          response <- first_content completion ;;
          response_s <- subst response ;;
          console_log [JStr ("🤖 Bot Response: " ++ dq ++ response_s ++ dq)] ;;
          total_tokens <- usage_total_tokens completion ;;
          tokens_s <- subst (js_or total_tokens (JStr "N/A")) ;;
          console_log [JStr ("📊 Tokens used: " ++ tokens_s)] ;;
          console_log [JStr (repeat_string "=" 80 ++ nl)] ;;
          ret (res_json [("response", response)])
    end.

(** The [catch (error)] block of the chat handler, lines 136-156 *)
Definition chat_catch (error : jsval) : M response :=
  console_error [JStr "Chat API error:"; error] ;;
  code <- Get error "code" ;;
  if strict_eq_string code "insufficient_quota" then
    ret (res_status_json 503
           [("error", JStr "Service temporarily unavailable. Please try again later.")])
  else
    code <- Get error "code" ;;
    if strict_eq_string code "invalid_api_key" then
      ret (res_status_json 500
             [("error", JStr "Service configuration error. Please contact support.")])
    else
      ret (res_status_json 500
             [("error", JStr "An error occurred while processing your request. Please try again.")]).

(** [app.post('/api/chat', ...)], lines 47-157 *)
Definition post_api_chat (e : env) (req : request) : M response :=
  try_catch (chat_try e req) chat_catch.

(** [app.use('*', ...)], lines 160-164 *)
Definition not_found : response :=
  res_status_json 404 [("error", JStr "Endpoint not found")].

(** [app.use((error, req, res, next) => ...)], lines 167-172 *)
Definition error_handler (error : jsval) : M response :=
  console_error [JStr "Unhandled error:"; error] ;;
  ret (res_status_json 500 [("error", JStr "Internal server error")]).

End Server2.

(** ** The second server, lines 187-346 *)

Module Server.

Definition systemPrompt : string :=
"You are Nova AI Assistant, a helpful AI assistant for Nova AI Solutions, a company specializing in enterprise AI solutions, IoT integration, and solar technology. 

Your role is to:
1. Help users understand our AI, IoT, and Solar solutions
2. Provide information about our services and capabilities
3. Answer questions about artificial intelligence, machine learning, IoT devices, and renewable energy
4. Guide users to contact our team for detailed consultations
5. Be professional, knowledgeable, and helpful

Key information about Nova AI Solutions:
- We provide custom AI solutions for enterprise businesses
- We offer IoT integration services and smart device management
- We develop solar technology and sustainable energy solutions
- We help businesses automate operations and improve efficiency
- We offer consultation and implementation services

Always be helpful and direct users to our contact page (contact-us.html) for detailed consultations or project discussions.".

(** The [try] block of the chat handler, lines 231-296 *)
Definition chat_try (e : env) (req : request) : M response :=
  message <- Get (body req) "message" ;;
  if negb (truthy message) || negb (String.eqb (typeof message) "string") then
    ret (res_status_json 400
           [("error", JStr "Message is required and must be a string")])
  else
    match require_openai e with
    | ModuleNotFound error_message =>
        console_error [JStr "OpenAI package not installed:"; JStr error_message] ;;
        ret (res_json [("response", JStr "I'm currently unavailable. Please contact our support team directly for assistance with AI, IoT, or Solar solutions.")])
    | Module create =>
        if negb (truthy (of_option (OPENAI_API_KEY e))) then
          console_warn [JStr "OpenAI API key not configured"] ;;
          ret (res_json [("response", JStr "I'm currently in maintenance mode. Please contact our support team directly for assistance with AI, IoT, or Solar solutions.")])
        else
          let apiKey := match OPENAI_API_KEY e with Some k => k | None => EmptyString end in
          completion <- completions_create create apiKey
            {| model := "gpt-3.5-turbo";
               messages := [ {| role := "system"; content := JStr systemPrompt |};
                             {| role := "user"; content := message |} ];
               max_tokens := 500;
               temperature := 7 # 10 |} ;;
          response <- first_content completion ;;
          ret (res_json [("response", response)])
    end.

(** The [catch (error)] block of the chat handler, lines 296-316 *)
Definition chat_catch (error : jsval) : M response :=
  console_error [JStr "Chat API error:"; error] ;;
  code <- Get error "code" ;;
  if strict_eq_string code "insufficient_quota" then
    ret (res_status_json 503
           [("error", JStr "Service temporarily unavailable. Please try again later.")])
  else
    code <- Get error "code" ;;
    if strict_eq_string code "invalid_api_key" then
      ret (res_status_json 500
             [("error", JStr "Service configuration error. Please contact support.")])
    else
      ret (res_status_json 500
             [("error", JStr "An error occurred while processing your request. Please try again.")]).

(** [app.post('/api/chat', ...)], lines 230-317 *)
Definition post_api_chat (e : env) (req : request) : M response :=
  try_catch (chat_try e req) chat_catch.

(** [app.use('*', ...)], lines 320-324 *)
Definition not_found : response :=
  res_status_json 404 [("error", JStr "Endpoint not found")].

(** [app.use((error, req, res, next) => ...)], lines 327-332 *)
Definition error_handler (error : jsval) : M response :=
  console_error [JStr "Unhandled error:"; error] ;;
  ret (res_status_json 500 [("error", JStr "Internal server error")]).

End Server.

(** ** Observations of a run *)

(** The response the handler sends; [None] when the handler's promise
    rejects without any response. *)
Definition answer (m : M response) : option response :=
  match snd m with
  | inr r => Some r
  | inl _ => None
  end.

Definition trace (m : M response) : list event := fst m.

(** The upstream completion calls of a trace, in order. *)
Fixpoint upstream_calls (t : list event) : list (string * create_params) :=
  match t with
  | [] => []
  | Create k p :: rest => (k, p) :: upstream_calls rest
  | Console _ _ :: rest => upstream_calls rest
  end.

(** The fixed answers of the endpoint. *)
Definition invalid_request : response :=
  {| status := 400;
     json := [("error", JStr "Message is required and must be a string")] |}.

Definition module_missing_reply : response :=
  {| status := 200;
     json := [("response", JStr "I'm currently unavailable. Please contact our support team directly for assistance with AI, IoT, or Solar solutions.")] |}.

Definition no_credential_reply : response :=
  {| status := 200;
     json := [("response", JStr "I'm currently in maintenance mode. Please contact our support team directly for assistance with AI, IoT, or Solar solutions.")] |}.

Definition quota_error : response :=
  {| status := 503;
     json := [("error", JStr "Service temporarily unavailable. Please try again later.")] |}.

Definition configuration_error : response :=
  {| status := 500;
     json := [("error", JStr "Service configuration error. Please contact support.")] |}.

Definition processing_error : response :=
  {| status := 500;
     json := [("error", JStr "An error occurred while processing your request. Please try again.")] |}.

(** ** The vocabulary of the specification *)

(** The outbound call of the relay (spec 4.4): the persona prompt in a
    system message, the user's text in a user message, at most 500 tokens,
    temperature 0.7. *)
Definition outbound (prompt : string) (message : jsval) : create_params :=
  {| model := "gpt-3.5-turbo";
     messages := [ {| role := "system"; content := JStr prompt |};
                   {| role := "user"; content := message |} ];
     max_tokens := 500;
     temperature := 7 # 10 |}.

(** The gate lets a request through when the test of lines 60 and 234
    fails. *)
Definition gate (message : jsval) : bool :=
  negb (negb (truthy message) || negb (String.eqb (typeof message) "string")).

(** The result of the availability check (spec 4.2). *)
Inductive availability : Type :=
| Available
| Unavailable (reason : string).

(** The availability check in the words of the specification: first
    whether the integration module loads, then whether a non-empty
    credential is configured. *)
Definition provider_availability (e : env) : availability :=
  match require_openai e with
  | ModuleNotFound _ => Unavailable "module-missing"
  | Module _ =>
      match OPENAI_API_KEY e with
      | None => Unavailable "no-credential"
      | Some k => if String.eqb k EmptyString then Unavailable "no-credential" else Available
      end
  end.

(** The fallback responder in the words of the specification (spec 4.3). *)
Definition fallback (reason : string) : response :=
  if String.eqb reason "module-missing" then module_missing_reply else no_credential_reply.

(** The translation of an upstream failure in the words of the
    specification (spec 4.4 and 4.5): by the error's code alone. *)
Definition translate (code : jsval) : response :=
  if strict_eq_string code "insufficient_quota" then quota_error
  else if strict_eq_string code "invalid_api_key" then configuration_error
  else processing_error.

(** A value that a template literal can print. *)
Definition printable (v : jsval) : bool :=
  match ToString v with
  | inr _ => true
  | inl _ => false
  end.

(** ** A reference pipeline *)

(** What the [catch] block answers to an error: nothing when reading
    [error.code] itself throws. *)
Definition catch_answer (error : jsval) : option response :=
  if nullish error then None else Some (translate (own error "code")).

(** [completion.usage?.total_tokens || 'N/A'] for a completion that is not
    [undefined] or [null]. *)
Definition tokens_or_NA (completion : jsval) : jsval :=
  let usage := own completion "usage" in
  js_or (if nullish usage then JUndefined else own usage "total_tokens") (JStr "N/A").

(** The answer of the relay to a settled upstream call.  With [verbose]
    the reply and the token count are printed before the answer. *)
Definition relay_answer (verbose : bool) (p : settled) : option response :=
  match p with
  | Rejected error => catch_answer error
  | Fulfilled completion =>
      match snd (first_content completion) with
      | inl error => catch_answer error
      | inr response =>
          if verbose && negb (printable response && printable (tokens_or_NA completion))
          then Some processing_error
          else Some (res_json [("response", response)])
      end
  end.

(** Gate, availability check, fallback or relay, translation: the answer
    and the upstream calls of one request.  With [verbose] the message is
    printed before the gate. *)
Definition reference (verbose : bool) (prompt : string) (e : env) (req : request)
  : option response * list (string * create_params) :=
  if nullish (body req) then (Some processing_error, [])
  else
    let message := own (body req) "message" in
    if verbose && negb (printable message) then (Some processing_error, [])
    else if negb (gate message) then (Some invalid_request, [])
    else
      match require_openai e with
      | ModuleNotFound _ => (Some module_missing_reply, [])
      | Module create =>
          match OPENAI_API_KEY e with
          | None => (Some no_credential_reply, [])
          | Some k =>
              if String.eqb k EmptyString then (Some no_credential_reply, [])
              else (relay_answer verbose (create k (outbound prompt message)),
                    [(k, outbound prompt message)])
          end
      end.

Definition observe (m : M response) : option response * list (string * create_params) :=
  (answer m, upstream_calls (trace m)).

(** Induction on values, through the lists of arrays and objects. *)
Section jsval_induction.
Variable P : jsval -> Prop.
Hypothesis Hundefined : P JUndefined.
Hypothesis Hnull : P JNull.
Hypothesis Hbool : forall b, P (JBool b).
Hypothesis Hnum : forall n, P (JNum n).
Hypothesis Hstr : forall s, P (JStr s).
Hypothesis Harr : forall l, Forall P l -> P (JArr l).
Hypothesis Hobj : forall o, Forall (fun kv => P (snd kv)) o -> P (JObj o).

Fixpoint jsval_nested_ind (v : jsval) : P v :=
  match v with
  | JUndefined => Hundefined
  | JNull => Hnull
  | JBool b => Hbool b
  | JNum n => Hnum n
  | JStr s => Hstr s
  | JArr l =>
      Harr l ((fix go (l : list jsval) : Forall P l :=
                 match l with
                 | [] => Forall_nil P
                 | x :: rest => Forall_cons x (jsval_nested_ind x) (go rest)
                 end) l)
  | JObj o =>
      Hobj o ((fix go (o : list (string * jsval)) : Forall (fun kv => P (snd kv)) o :=
                 match o with
                 | [] => Forall_nil _
                 | kv :: rest => Forall_cons kv (jsval_nested_ind (snd kv)) (go rest)
                 end) o)
  end.
End jsval_induction.

Definition cannot_convert : jsval := TypeError "Cannot convert object to primitive value".


(** The request reaches the relay: the gate accepts its message and the
    provider is available. *)
Definition relay_reached (e : env) (req : request) : bool :=
  gate (own (body req) "message") &&
  match provider_availability e with
  | Available => true
  | Unavailable _ => false
  end.

(** The relay of request [req] runs in [e] with credential [k] and the
    upstream call settles as [p]. *)
Definition relay_settles (e : env) (req : request) (k : string) (p : settled) : Prop :=
  exists s create,
    own (body req) "message" = JStr s /\ s <> EmptyString /\
    require_openai e = Module create /\
    OPENAI_API_KEY e = Some k /\ k <> EmptyString /\
    create k (outbound Server2.systemPrompt (JStr s)) = p.

(** A body some handler of either server returns for request [req] in
    [e]: an answer of the chat endpoint, of the 404 handler or of the error
    handler. *)
Definition returned (e : env) (req : request) (r : response) : Prop :=
  answer (Server2.post_api_chat e req) = Some r \/
  answer (Server.post_api_chat e req) = Some r \/
  r = Server2.not_found \/
  r = Server.not_found \/
  (exists error, answer (Server2.error_handler error) = Some r) \/
  (exists error, answer (Server.error_handler error) = Some r).

(** ** Sample requests and environments *)

Definition one : jsval := JNum (mkNumber true "1").

Definition request_of (b : jsval) : request :=
  {| body := b; ip := Some "203.0.113.7"; remoteAddress := None |}.

Definition hello : request := request_of (JObj [("message", JStr "Hello")]).

Definition blank : request := request_of (JObj [("message", JStr " ")]).

Definition empty_message : request := request_of (JObj [("message", JStr EmptyString)]).

(** The JSON body [{"message": {"toString": 1}}]. *)
Definition shadowed_toString : request :=
  request_of (JObj [("message", JObj [("toString", one)])]).

Definition hi_there : jsval :=
  JObj [("choices",
         JArr [JObj [("message",
                      JObj [("role", JStr "assistant"); ("content", JStr "Hi there!")])]]);
        ("usage", JObj [("total_tokens", JNum (mkNumber true "42"))])].

(** A completion whose first message carries no [content]. *)
Definition no_content : jsval :=
  JObj [("choices", JArr [JObj [("message", JObj [("role", JStr "assistant")])]])].

Definition api_error (code message : string) : jsval :=
  JObj [("message", JStr message); ("code", JStr code); ("status", JNum (mkNumber true "429"))].

Definition quota_exceeded : jsval :=
  api_error "insufficient_quota" "You exceeded your current quota.".

(** The same code with another message and another payload. *)
Definition quota_exceeded_again : jsval :=
  JObj [("code", JStr "insufficient_quota");
        ("message", JStr "Billing hard limit has been reached");
        ("stack", JStr "Error: 429 at APIError.generate")].

Definition env_of (load : load_result) (key : option string) : env :=
  {| require_openai := load; OPENAI_API_KEY := key;
     toISOString_now := "2024-05-01T12:00:00.000Z" |}.

Definition answering (p : settled) : env :=
  env_of (Module (fun _ _ => p)) (Some "sk-test").

Definition not_installed : env :=
  env_of (ModuleNotFound "Cannot find module 'openai'") (Some "sk-test").

Definition other_key (p : settled) : env :=
  env_of (Module (fun _ _ => p)) (Some "sk-other").

Definition no_key : env := env_of (Module (fun _ _ => Fulfilled hi_there)) None.

(** ** The rest of the servers *)

(** [process.env.PORT || 5001], lines 8 and 194 *)
Definition PORT (env_PORT : option string) : jsval :=
  js_or (of_option env_PORT) (JNum {| num_truthy := true; num_text := "5001" |}).

(** The callback of [app.listen], lines 175-184 and 335-344 *)
Definition listening (e : env) (port : jsval) : M unit :=
  port_s <- subst port ;;
  console_log [JStr ("🚀 Nova AI Chatbot API running on port " ++ port_s)] ;;
  port_s <- subst port ;;
  console_log [JStr ("📊 Health check: http://localhost:" ++ port_s ++ "/health")] ;;
  port_s <- subst port ;;
  console_log [JStr ("💬 Chat endpoint: http://localhost:" ++ port_s ++ "/api/chat")] ;;
  if negb (truthy (of_option (OPENAI_API_KEY e))) then
    console_warn [JStr "⚠️  OpenAI API key not configured. Chatbot will respond with fallback messages."] ;;
    console_log [JStr "📝 To enable full functionality, set OPENAI_API_KEY in your .env file"]
  else
    ret tt.

(** ** More vocabulary *)

(** [v[0]] for a value that is not [undefined] or [null] *)
Definition item0 (v : jsval) : jsval :=
  match v with
  | JArr l => nth 0 l JUndefined
  | JObj o => match lookup "0" o with Some x => x | None => JUndefined end
  | JStr s => match s with EmptyString => JUndefined | String c _ => JStr (String c EmptyString) end
  | _ => JUndefined
  end.

(** The first message of a completion: [completion.choices[0].message],
    read without the errors. *)
Definition first_message (completion : jsval) : jsval :=
  own (item0 (own completion "choices")) "message".

(** The completion has no first message to read a content from: it is
    [undefined] or [null], or its [choices], their first element or the
    [message] of that element is. *)
Definition malformed (completion : jsval) : bool :=
  nullish completion ||
  nullish (own completion "choices") ||
  nullish (item0 (own completion "choices")) ||
  nullish (first_message completion).

(** A number that JSON can carry: not NaN and not an infinity. *)
Definition finite (n : number) : bool :=
  negb (String.eqb (num_text n) "NaN") &&
  negb (String.eqb (num_text n) "Infinity") &&
  negb (String.eqb (num_text n) "-Infinity").

(** The values that [JSON.stringify] sends unchanged: [null], booleans,
    strings, finite numbers, and arrays and objects of such values;
    [undefined] is not one of them, at any depth. *)
Fixpoint json_stable (v : jsval) : bool :=
  match v with
  | JUndefined => false
  | JNull => true
  | JBool _ => true
  | JNum n => finite n
  | JStr _ => true
  | JArr l => forallb json_stable l
  | JObj o => forallb (fun kv : string * jsval => let (_, x) := kv in json_stable x) o
  end.

(** The console output of a trace, in order. *)
Fixpoint console_output (t : list event) : list (level * list jsval) :=
  match t with
  | [] => []
  | Console lvl args :: rest => (lvl, args) :: console_output rest
  | Create _ _ :: rest => console_output rest
  end.

(** Two runs that end alike, print alike and send the same parameters
    upstream. *)
Definition alike {A} (m1 m2 : M A) : Prop :=
  snd m1 = snd m2 /\
  console_output (fst m1) = console_output (fst m2) /\
  map snd (upstream_calls (fst m1)) = map snd (upstream_calls (fst m2)).

(** The text of [${clientIP}], line 56. *)
Definition clientIP_text (req : request) : string :=
  match ip req with
  | Some a =>
      if String.eqb a EmptyString
      then match remoteAddress req with Some b => b | None => "undefined" end
      else a
  | None => match remoteAddress req with Some b => b | None => "undefined" end
  end.

(** What the first server prints of a request before it looks at it,
    lines 54-58. *)
Definition incoming_lines (e : env) (req : request) (message_s : string) : list event :=
  [ Console Log [JStr (nl ++ repeat_string "=" 80)];
    Console Log [JStr ("📨 INCOMING MESSAGE [" ++ toISOString_now e ++ "]")];
    Console Log [JStr ("🌐 Client IP: " ++ clientIP_text req)];
    Console Log [JStr ("💬 User Message: " ++ dq ++ message_s ++ dq)];
    Console Log [JStr (repeat_string "=" 80)] ].

(** ** More samples *)

Definition no_body : request :=
  {| body := JUndefined; ip := None; remoteAddress := Some "::1" |}.

Definition number_message : request := request_of (JObj [("message", one)]).

Definition array_body : request := request_of (JArr [JStr "Hello"]).

(** A completion with an empty list of choices. *)
Definition no_choices : jsval := JObj [("choices", JArr [])].

(** A completion whose first content is [null]. *)
Definition null_content : jsval :=
  JObj [("choices",
         JArr [JObj [("message", JObj [("role", JStr "assistant"); ("content", JNull)])]])].

(** A completion with a text content, whose token count is an object
    with a [toString] property of its own. *)
Definition unprintable_usage : jsval :=
  JObj [("choices",
         JArr [JObj [("message",
                      JObj [("role", JStr "assistant"); ("content", JStr "Hi there!")])]]);
        ("usage", JObj [("total_tokens", JObj [("toString", one)])])].

(** A completion whose first content is an object with a [toString]
    property of its own. *)
Definition shadowed_content : jsval :=
  JObj [("choices",
         JArr [JObj [("message", JObj [("content", JObj [("toString", one)])])]])].

(** ** Configuration, lines 8 and 22-31 (and 194, 205-214) *)

Module Config.

(** The number that [parseInt] gives: [NaN], or the integer whose digits
    it read, with its sign ([Int true 0] is -0).  The JS number is the
    double nearest to that integer, the integer itself below 2^53. *)
Inductive parsed : Type :=
| NaN
| Int (negative : bool) (magnitude : N).

Definition code (c : ascii) : N := N_of_ascii c.

(** TAB, LF, VT, FF, CR and the space *)
Definition ascii_space (a : N) : bool :=
  (a =? 9)%N || (a =? 10)%N || (a =? 11)%N || (a =? 12)%N || (a =? 13)%N || (a =? 32)%N.

(** The white space and line terminators of three bytes in UTF-8: U+1680,
    U+2000 to U+200A, U+2028, U+2029, U+202F, U+205F, U+3000 and U+FEFF. *)
Definition wide_space (a b c : N) : bool :=
  (a =? 225)%N && (b =? 154)%N && (c =? 128)%N ||
  (a =? 226)%N && (b =? 128)%N &&
    ((128 <=? c)%N && (c <=? 138)%N || (c =? 168)%N || (c =? 169)%N || (c =? 175)%N) ||
  (a =? 226)%N && (b =? 129)%N && (c =? 159)%N ||
  (a =? 227)%N && (b =? 128)%N && (c =? 128)%N ||
  (a =? 239)%N && (b =? 187)%N && (c =? 191)%N.

(** TrimString at the start: leading white space and line terminators
    removed (U+00A0 is the one of two bytes). *)
Fixpoint trim_start (s : string) : string :=
  match s with
  | String a r =>
      if ascii_space (code a) then trim_start r
      else
        match r with
        | String b r' =>
            if (code a =? 194)%N && (code b =? 160)%N then trim_start r'
            else
              match r' with
              | String c r'' =>
                  if wide_space (code a) (code b) (code c) then trim_start r'' else s
              | EmptyString => s
              end
        | EmptyString => s
        end
  | EmptyString => s
  end.

(** The value of a digit or letter as a digit. *)
Definition digit_value (a : N) : option N :=
  if (48 <=? a)%N && (a <=? 57)%N then Some (a - 48)%N
  else if (97 <=? a)%N && (a <=? 122)%N then Some (a - 87)%N
  else if (65 <=? a)%N && (a <=? 90)%N then Some (a - 55)%N
  else None.

(** The integer of the longest prefix of digits of the radix; [acc] is
    the integer read so far, [None] before the first digit. *)
Fixpoint digits (radix : N) (acc : option N) (s : string) : option N :=
  match s with
  | String a r =>
      match digit_value (code a) with
      | Some d =>
          if (d <? radix)%N
          then digits radix (Some (match acc with Some n => n * radix + d | None => d end)%N) r
          else acc
      | None => acc
      end
  | EmptyString => acc
  end.

(** [parseInt(string)] without a radix: white space, a sign, [0x] or
    [0X] for radix 16, then digits. *)
Definition parseInt_string (input : string) : parsed :=
  let s := trim_start input in
  let (negative, s) :=
    match s with
    | String a r =>
        if (code a =? 45)%N then (true, r)
        else if (code a =? 43)%N then (false, r)
        else (false, s)
    | EmptyString => (false, s)
    end in
  let (radix, s) :=
    match s with
    | String a (String b r) =>
        if (code a =? 48)%N && ((code b =? 120)%N || (code b =? 88)%N)
        then (16%N, r) else (10%N, s)
    | _ => (10%N, s)
    end in
  match digits radix None s with
  | None => NaN
  | Some n => Int negative n
  end.

(** [parseInt(process.env.X)]: an unset variable is [undefined], which
    reads as the string "undefined". *)
Definition parseInt (variable : option string) : parsed :=
  parseInt_string (match variable with Some s => s | None => "undefined" end).

(** [n || d] for a number [n] and a positive default [d]: NaN, +0 and -0
    are falsy. *)
Definition or_default (n : parsed) (d : N) : parsed :=
  match n with
  | NaN => Int false d
  | Int _ 0%N => Int false d
  | Int _ _ => n
  end.

(** The options of [rateLimit], lines 23-29 and 206-212 *)
Record rate_limit_options : Type := mkOptions {
  windowMs : parsed;
  max : parsed;
  message : object
}.

Definition limiter (RATE_LIMIT_WINDOW_MS RATE_LIMIT_MAX_REQUESTS : option string)
  : rate_limit_options :=
  {| windowMs := or_default (parseInt RATE_LIMIT_WINDOW_MS) (15 * 60 * 1000);
     max := or_default (parseInt RATE_LIMIT_MAX_REQUESTS) 100;
     message := [("error", JStr "Too many requests from this IP, please try again later.")] |}.

End Config.

(** The decimal numeral of a natural number. *)
Definition numeral (n : N) : string :=
  DecimalString.NilZero.string_of_uint (N.to_uint n).

(** A character that is not a decimal digit. *)
Definition not_a_digit (c : ascii) : Prop :=
  (Config.code c < 48 \/ 57 < Config.code c)%N.

(** The string does not go on with a decimal digit. *)
Definition stops (rest : string) : Prop :=
  match rest with
  | EmptyString => True
  | String c _ => not_a_digit c
  end.


(** * Proofs *)
(** ** Running the monad *)

Lemma bind_ret {A B} (a : A) (f : A -> M B) : bind (ret a) f = f a.
Proof. unfold bind, ret. destruct (f a) as [t r]. reflexivity. Qed.

Lemma bind_throw {A B} (e : jsval) (f : A -> M B) : bind (throw e) f = throw e.
Proof. reflexivity. Qed.

Lemma strict_eq_string_true v s : strict_eq_string v s = true <-> v = JStr s.
Proof.
  destruct v; cbn; split; try discriminate.
  - intros H. apply String.eqb_eq in H. now subst.
  - intros H. injection H as ->. apply String.eqb_refl.
Qed.

Lemma gate_true m : gate m = true <-> exists s, m = JStr s /\ s <> EmptyString.
Proof.
  unfold gate. split.
  - destruct m; cbn; try discriminate.
    + destruct b; discriminate.
    + destruct (num_truthy n); discriminate.
    + destruct (String.eqb s EmptyString) eqn:E; cbn; try discriminate.
      intros _. exists s. split; [reflexivity|]. now apply String.eqb_neq.
  - intros (s & -> & Hs). cbn. apply String.eqb_neq in Hs. now rewrite Hs.
Qed.

Lemma Get_run v key :
  nullish v = false -> Get v key = ret (own v key).
Proof. destruct v; try discriminate; reflexivity. Qed.



Lemma first_content_run c : first_content c = ([], snd (first_content c)).
Proof.
  unfold first_content.
  destruct c; try reflexivity.
  cbn. destruct (lookup "choices" props) as [ch|]; [|reflexivity].
  destruct ch as [| | b | n | s | l | o]; try reflexivity.
  - destruct s; reflexivity.
  - cbn. destruct (nth 0 l JUndefined) as [| | b | n | s | l' | o]; try reflexivity.
    cbn. destruct (lookup "message" o) as [m|]; [|reflexivity].
    destruct m; reflexivity.
  - cbn. destruct (lookup "0" o) as [x|]; [|reflexivity].
    destruct x as [| | b | n | s | l' | o']; try reflexivity.
    cbn. destruct (lookup "message" o') as [m|]; [|reflexivity].
    destruct m; reflexivity.
Qed.


Lemma chat_catch_run err :
  nullish err = false ->
  Server.chat_catch err =
  ([Console Error [JStr "Chat API error:"; err]], inr (translate (own err "code"))).
Proof.
  intros H. unfold Server.chat_catch, translate.
  rewrite (Get_run _ _ H). cbn.
  destruct (strict_eq_string (own err "code") "insufficient_quota"); cbn; [reflexivity|].
  destruct (strict_eq_string (own err "code") "invalid_api_key"); cbn; reflexivity.
Qed.

Lemma chat_catch_nullish err :
  nullish err = true ->
  exists e', Server.chat_catch err = ([Console Error [JStr "Chat API error:"; err]], inl e').
Proof. destruct err; try discriminate; intros _; eexists; reflexivity. Qed.

Lemma upstream_calls_app t1 t2 :
  upstream_calls (t1 ++ t2) = upstream_calls t1 ++ upstream_calls t2.
Proof.
  induction t1 as [|ev t1 IH]; [reflexivity|].
  destruct ev; cbn; now rewrite IH.
Qed.

Lemma observe_catch t err :
  observe (try_catch (t, inl err) Server.chat_catch) = (catch_answer err, upstream_calls t).
Proof.
  unfold catch_answer, observe, answer, trace, try_catch.
  destruct (nullish err) eqn:N.
  - destruct (chat_catch_nullish err N) as [e' ->]. cbn.
    now rewrite upstream_calls_app, app_nil_r.
  - rewrite (chat_catch_run err N). cbn.
    now rewrite upstream_calls_app, app_nil_r.
Qed.



(** The only error of a string conversion is the TypeError. *)
Lemma ToString_error v : forall e, ToString v = inl e -> e = cannot_convert.
Proof.
  induction v as [| | b | n | s | l IH | o _] using jsval_nested_ind; intros e; cbn.
  - discriminate.
  - discriminate.
  - destruct b; discriminate.
  - discriminate.
  - discriminate.
  - match goal with |- context [match ?j l with _ => _ end] => set (join := j) end.
    assert (J : forall e', join l = inl e' -> e' = cannot_convert).
    { clear e. induction IH as [|x rest Hx _ IHrest]; intros e'; cbn.
      - discriminate.
      - destruct (nullish x).
        + destruct (join rest) as [e''|ss] eqn:Jr; [|discriminate].
          intros [= <-]. now apply IHrest.
        + destruct (ToString x) as [e''|sx] eqn:Tx.
          * intros [= <-]. now apply Hx.
          * destruct (join rest) as [e''|ss] eqn:Jr; [|discriminate].
            intros [= <-]. now apply IHrest. }
    destruct (join l) as [e'|ss]; [|discriminate].
    intros [= <-]. now apply J.
  - destruct (has_own "toString" o); [|discriminate].
    now intros [= <-].
Qed.

Lemma subst_run v :
  subst v = match ToString v with inl _ => throw cannot_convert | inr s => ret s end.
Proof.
  unfold subst. destruct (ToString v) as [e|s] eqn:T; [|reflexivity].
  now rewrite (ToString_error v e T).
Qed.

Lemma subst_clientIP i ra :
  exists s, subst (js_or (of_option i) (of_option ra)) = ret s.
Proof.
  destruct i as [a|]; cbn.
  - unfold js_or. cbn. destruct (String.eqb a EmptyString); cbn.
    + destruct ra; eexists; reflexivity.
    + eexists; reflexivity.
  - unfold js_or. cbn. destruct ra; eexists; reflexivity.
Qed.

(** The second server is the reference pipeline. *)
Lemma Server_reference e req :
  observe (Server.post_api_chat e req) = reference false Server.systemPrompt e req.
Proof.
  unfold Server.post_api_chat, Server.chat_try, reference.
  destruct (nullish (body req)) eqn:Nb.
  - destruct (body req); try discriminate; reflexivity.
  - rewrite (Get_run _ _ Nb), bind_ret.
    set (message := own (body req) "message").
    unfold gate. cbn [andb].
    destruct (negb (truthy message) || negb (typeof message =? "string")%string) eqn:G;
      cbn [negb]; [reflexivity|].
    destruct (require_openai e) as [msg|create]; [reflexivity|].
    destruct (OPENAI_API_KEY e) as [k|]; [|reflexivity].
    cbn [of_option truthy]. 
    destruct (String.eqb k EmptyString) eqn:Ek; cbn [negb]; [reflexivity|].
    fold (outbound Server.systemPrompt message).
    unfold completions_create, relay_answer.
    destruct (create k (outbound Server.systemPrompt message)) as [c|err].
    + cbn -[first_content Server.chat_catch].
      pose proof (first_content_run c) as F.
      destruct (first_content c) as [t [err|v]]; injection F as ->.
      * cbn -[Server.chat_catch try_catch]. rewrite observe_catch. reflexivity.
      * reflexivity.
    + cbn -[Server.chat_catch try_catch]. rewrite observe_catch. reflexivity.
Qed.


(** Console output changes neither the answer nor the upstream calls. *)
Lemma observe_console lvl args (k : M response) h :
  observe (try_catch (emit (Console lvl args) ;; k) h) = observe (try_catch k h).
Proof.
  unfold observe, answer, trace, try_catch, bind, emit.
  destruct k as [t [err|r]]; cbn; [|reflexivity].
  destruct (h err) as [t' r']. reflexivity.
Qed.

Lemma observe_create key p (k : M response) h :
  observe (try_catch (emit (Create key p) ;; k) h) =
  (fst (observe (try_catch k h)), (key, p) :: snd (observe (try_catch k h))).
Proof.
  unfold observe, answer, trace, try_catch, bind, emit.
  destruct k as [t [err|r]]; cbn; [|reflexivity].
  destruct (h err) as [t' r']. reflexivity.
Qed.

Lemma observe_throw err :
  observe (try_catch (throw err) Server.chat_catch) = (catch_answer err, []).
Proof. unfold throw. now rewrite observe_catch. Qed.

Lemma bind_assoc {A B C} (m : M A) (f : A -> M B) (g : B -> M C) :
  bind (bind m f) g = bind m (fun a => bind (f a) g).
Proof.
  unfold bind. destruct m as [t [e|a]]; [reflexivity|].
  destruct (f a) as [t1 [e1|b]]; [reflexivity|].
  destruct (g b) as [t2 r2]. now rewrite app_assoc.
Qed.

Lemma usage_total_tokens_run c :
  nullish c = false ->
  usage_total_tokens c =
  ret (if nullish (own c "usage") then JUndefined else own (own c "usage") "total_tokens").
Proof.
  intros N. unfold usage_total_tokens. rewrite (Get_run _ _ N), bind_ret.
  unfold GetOpt. destruct (nullish (own c "usage")) eqn:U; [reflexivity|].
  now apply Get_run.
Qed.

Lemma first_content_returns c v : snd (first_content c) = inr v -> nullish c = false.
Proof. destruct c; cbn; try discriminate; reflexivity. Qed.

Ltac strip_console :=
  repeat (unfold console_log, console_warn, console_error; rewrite observe_console).

(** The first server is the reference pipeline with its printing. *)
Lemma Server2_reference e req :
  observe (Server2.post_api_chat e req) = reference true Server2.systemPrompt e req.
Proof.
  unfold Server2.post_api_chat, Server2.chat_try, reference.
  change Server2.chat_catch with Server.chat_catch.
  destruct (nullish (body req)) eqn:Nb.
  - destruct (body req); try discriminate; reflexivity.
  - rewrite (Get_run _ _ Nb), bind_ret.
    set (message := own (body req) "message").
    destruct (subst_clientIP (ip req) (remoteAddress req)) as [ips Hip].
    cbv zeta. strip_console. rewrite Hip, bind_ret. strip_console.
    rewrite (subst_run message). unfold printable.
    destruct (ToString message) as [err|ms] eqn:T; cbn [andb negb].
    + rewrite bind_throw, observe_throw. reflexivity.
    + rewrite bind_ret. strip_console. unfold gate.
      destruct (negb (truthy message) || negb (typeof message =? "string")%string) eqn:G;
        cbn [negb].
      { strip_console. reflexivity. }
      destruct (require_openai e) as [msg|create]; [strip_console; reflexivity|].
      destruct (OPENAI_API_KEY e) as [k|]; [|strip_console; reflexivity].
      cbn [of_option truthy].
      destruct (String.eqb k EmptyString) eqn:Ek; cbn [negb]; [strip_console; reflexivity|].
      strip_console.
      fold (outbound Server2.systemPrompt message).
      unfold completions_create, relay_answer.
      rewrite bind_assoc, observe_create.
      destruct (create k (outbound Server2.systemPrompt message)) as [c|err]; cbn [await].
      * rewrite bind_ret.
        pose proof (first_content_run c) as F.
        pose proof (first_content_returns c) as Nc.
        destruct (first_content c) as [t [err|v]]; injection F as ->; cbn [snd] in *.
        -- change (@pair (list event) (jsval + jsval) [] (inl err)) with (@throw jsval err).
           rewrite bind_throw, observe_throw. reflexivity.
        -- change (@pair (list event) (jsval + jsval) [] (inr v)) with (ret v).
           rewrite bind_ret, (subst_run v). unfold printable.
           destruct (ToString v) as [err|vs]; cbn [andb negb].
           ++ rewrite bind_throw, observe_throw. reflexivity.
           ++ rewrite bind_ret. strip_console.
              rewrite (usage_total_tokens_run c (Nc v eq_refl)), bind_ret.
              fold (tokens_or_NA c). rewrite (subst_run (tokens_or_NA c)).
              destruct (ToString (tokens_or_NA c)) as [err|ts]; cbn [andb negb].
              ** rewrite bind_throw, observe_throw. reflexivity.
              ** rewrite bind_ret. strip_console. reflexivity.
      * rewrite bind_throw, observe_throw. reflexivity.
Qed.

(** ** Consequences of the reference pipeline *)

Lemma translate_cases code :
  translate code = quota_error \/ translate code = configuration_error \/
  translate code = processing_error.
Proof.
  unfold translate.
  destruct (strict_eq_string code "insufficient_quota"); [now left|].
  destruct (strict_eq_string code "invalid_api_key"); [now right; left|now right; right].
Qed.

Lemma translate_quota code :
  code = JStr "insufficient_quota" -> translate code = quota_error.
Proof. now intros ->. Qed.

Lemma translate_credential code :
  code = JStr "invalid_api_key" -> translate code = configuration_error.
Proof. now intros ->. Qed.

Lemma translate_other code :
  code <> JStr "insufficient_quota" -> code <> JStr "invalid_api_key" ->
  translate code = processing_error.
Proof.
  intros H1 H2. unfold translate.
  destruct (strict_eq_string code "insufficient_quota") eqn:E1.
  { now apply strict_eq_string_true in E1. }
  destruct (strict_eq_string code "invalid_api_key") eqn:E2.
  { now apply strict_eq_string_true in E2. }
  reflexivity.
Qed.

Lemma gate_string s : gate (JStr s) = negb (String.eqb s EmptyString).
Proof. unfold gate. cbn. now destruct (String.eqb s EmptyString). Qed.

Lemma gate_not_string m : typeof m <> "string" -> gate m = false.
Proof.
  unfold gate. destruct m; cbn; rewrite ?orb_true_r; try reflexivity.
  intros H. now elim H.
Qed.

Lemma own_nullish v key : nullish v = true -> own v key = JUndefined.
Proof. destruct v; try discriminate; reflexivity. Qed.

Lemma own_string_body b s : own b "message" = JStr s -> nullish b = false.
Proof. destruct b; cbn; try discriminate; reflexivity. Qed.


(** What either server does with a request that the gate accepts. *)
Lemma accepted_reference verbose prompt e req s :
  own (body req) "message" = JStr s -> s <> EmptyString ->
  reference verbose prompt e req =
  match require_openai e with
  | ModuleNotFound _ => (Some module_missing_reply, [])
  | Module create =>
      match OPENAI_API_KEY e with
      | None => (Some no_credential_reply, [])
      | Some k =>
          if String.eqb k EmptyString then (Some no_credential_reply, [])
          else (relay_answer verbose (create k (outbound prompt (JStr s))),
                [(k, outbound prompt (JStr s))])
      end
  end.
Proof.
  intros Hm Hs. unfold reference.
  rewrite (own_string_body _ _ Hm), Hm, gate_string.
  apply String.eqb_neq in Hs. rewrite Hs. unfold printable. cbn [ToString negb].
  now rewrite andb_false_r.
Qed.

(** What either server does with a request that the gate refuses, when the
    first server can print the message. *)
Lemma refused_reference verbose prompt e req :
  nullish (body req) = false ->
  gate (own (body req) "message") = false ->
  (verbose = true -> printable (own (body req) "message") = true) ->
  reference verbose prompt e req = (Some invalid_request, []).
Proof.
  intros Nb G P. unfold reference. rewrite Nb, G.
  destruct verbose; [rewrite (P eq_refl)|]; reflexivity.
Qed.

Lemma answer_observe m : answer m = fst (observe m).
Proof. reflexivity. Qed.

Lemma calls_observe m : upstream_calls (trace m) = snd (observe m).
Proof. reflexivity. Qed.

Lemma gate_printable m : gate m = true -> printable m = true.
Proof. intros G. apply gate_true in G. destruct G as (s & -> & _). reflexivity. Qed.

Lemma catch_answer_cases err r :
  catch_answer err = Some r ->
  r = quota_error \/ r = configuration_error \/ r = processing_error.
Proof.
  unfold catch_answer. destruct (nullish err); [discriminate|].
  intros [= <-]. apply translate_cases.
Qed.

(** The answers of the relay: a translated failure, or the first content
    of the completion. *)
Lemma relay_answer_cases verbose p r :
  relay_answer verbose p = Some r ->
  r = quota_error \/ r = configuration_error \/ r = processing_error \/
  exists c v, p = Fulfilled c /\ first_content c = ret v /\ r = res_json [("response", v)].
Proof.
  unfold relay_answer. destruct p as [c|err].
  - pose proof (first_content_run c) as F.
    destruct (snd (first_content c)) as [err|v].
    + intros H. apply catch_answer_cases in H. tauto.
    + destruct (verbose && negb (printable v && printable (tokens_or_NA c))).
      * intros [= <-]. tauto.
      * intros [= <-]. right; right; right. exists c, v. auto.
  - intros H. apply catch_answer_cases in H. tauto.
Qed.

(** Every answer of the chat endpoint. *)
Lemma reference_cases verbose e req r :
  fst (reference verbose Server2.systemPrompt e req) = Some r ->
  r = invalid_request \/ r = module_missing_reply \/ r = no_credential_reply \/
  r = quota_error \/ r = configuration_error \/ r = processing_error \/
  exists k c v, relay_settles e req k (Fulfilled c) /\ first_content c = ret v /\
                r = res_json [("response", v)].
Proof.
  unfold reference.
  destruct (nullish (body req)) eqn:Nb; [intros [= <-]; tauto|].
  destruct (verbose && negb (printable (own (body req) "message")));
    [intros [= <-]; tauto|].
  destruct (gate (own (body req) "message")) eqn:G; cbn [negb];
    [|intros [= <-]; tauto].
  apply gate_true in G. destruct G as (s & Hm & Hs).
  destruct (require_openai e) as [msg|create] eqn:R; [intros [= <-]; tauto|].
  destruct (OPENAI_API_KEY e) as [k|] eqn:K; [|intros [= <-]; tauto].
  destruct (String.eqb k EmptyString) eqn:Ek; [intros [= <-]; tauto|].
  cbn [fst]. intros H. apply relay_answer_cases in H.
  destruct H as [H|[H|[H|(c & v & Hp & Hc & Hr)]]]; try tauto.
  do 6 right. exists k, c, v. split; [|split; trivial].
  exists s, create. rewrite Hm in Hp. apply String.eqb_neq in Ek.
  repeat split; trivial.
Qed.

(** With a message it can print, the first server refuses what the gate
    refuses, without an upstream call. *)
Lemma Server2_gate_refuses e req :
  nullish (body req) = false ->
  gate (own (body req) "message") = false ->
  printable (own (body req) "message") = true ->
  observe (Server2.post_api_chat e req) = (Some invalid_request, []).
Proof.
  intros Nb G P. rewrite Server2_reference. now apply refused_reference.
Qed.

(** The second server refuses what the gate refuses, without an upstream
    call. *)
Lemma Server_gate_refuses e req :
  nullish (body req) = false ->
  gate (own (body req) "message") = false ->
  observe (Server.post_api_chat e req) = (Some invalid_request, []).
Proof.
  intros Nb G. rewrite Server_reference. apply refused_reference; trivial.
  discriminate.
Qed.

(** The second server answers 400 to every request body whose [message] is
    absent or not a string. *)
Lemma Server_refuses_non_strings e req :
  nullish (body req) = false ->
  typeof (own (body req) "message") <> "string" ->
  observe (Server.post_api_chat e req) = (Some invalid_request, []).
Proof.
  intros Nb T. apply Server_gate_refuses; trivial. now apply gate_not_string.
Qed.

(** So does the first server, for the messages it can print. *)
Lemma Server2_refuses_printable_non_strings e req :
  nullish (body req) = false ->
  typeof (own (body req) "message") <> "string" ->
  printable (own (body req) "message") = true ->
  observe (Server2.post_api_chat e req) = (Some invalid_request, []).
Proof.
  intros Nb T P. apply Server2_gate_refuses; trivial. now apply gate_not_string.
Qed.

(** The two servers answer alike, and call upstream alike, when the first
    one can print all it logs. *)
Lemma servers_agree e req :
  printable (own (body req) "message") = true ->
  (forall k p c v, relay_settles e req k p -> p = Fulfilled c ->
     first_content c = ret v ->
     printable v = true /\ printable (tokens_or_NA c) = true) ->
  observe (Server2.post_api_chat e req) = observe (Server.post_api_chat e req).
Proof.
  intros P H. rewrite Server2_reference, Server_reference.
  change Server.systemPrompt with Server2.systemPrompt.
  unfold reference. rewrite P. cbn [negb andb].
  destruct (nullish (body req)); [reflexivity|].
  destruct (gate (own (body req) "message")) eqn:G; cbn [negb]; [|reflexivity].
  apply gate_true in G. destruct G as (s & Hm & Hs).
  destruct (require_openai e) as [msg|create] eqn:R; [reflexivity|].
  destruct (OPENAI_API_KEY e) as [k|] eqn:K; [|reflexivity].
  destruct (String.eqb k EmptyString) eqn:Ek; [reflexivity|].
  f_equal. unfold relay_answer.
  destruct (create k (outbound Server2.systemPrompt (own (body req) "message")))
    as [c|err] eqn:C; [|reflexivity].
  pose proof (first_content_run c) as F.
  destruct (snd (first_content c)) as [err|v]; [reflexivity|].
  destruct (H k (Fulfilled c) c v) as [Pv Pt]; trivial.
  - exists s, create. rewrite Hm in C. apply String.eqb_neq in Ek.
    repeat split; trivial.
  - now rewrite Pv, Pt.
Qed.

Lemma relay_settles_reference verbose e req k p :
  relay_settles e req k p ->
  reference verbose Server2.systemPrompt e req =
  (relay_answer verbose p, [(k, outbound Server2.systemPrompt (own (body req) "message"))]).
Proof.
  intros (s & create & Hm & Hs & R & K & Hk & C).
  rewrite (accepted_reference _ _ _ _ _ Hm Hs), R, K, Hm, C.
  apply String.eqb_neq in Hk. now rewrite Hk.
Qed.

Lemma relay_settles_string e req k p :
  relay_settles e req k p -> typeof (own (body req) "message") = "string".
Proof. intros (s & create & Hm & _). now rewrite Hm. Qed.

Lemma calls_reference verbose prompt e req :
  length (snd (reference verbose prompt e req)) = if relay_reached e req then 1%nat else 0%nat.
Proof.
  unfold reference, relay_reached, provider_availability.
  destruct (nullish (body req)) eqn:Nb.
  { now rewrite (own_nullish _ _ Nb). }
  destruct (gate (own (body req) "message")) eqn:G.
  - rewrite (gate_printable _ G), andb_false_r. cbn [negb andb].
    destruct (require_openai e); [reflexivity|].
    destruct (OPENAI_API_KEY e) as [k|]; [|reflexivity].
    destruct (String.eqb k EmptyString); reflexivity.
  - cbn [negb andb]. now destruct (verbose && negb (printable (own (body req) "message"))).
Qed.

(** ** The claims *)

(** C1 (the code departs from it).  A request whose [message] is not a
    string must be answered 400 with the invalid-request error.  For the
    JSON body [{"message": {"toString": 1}}] the first server prints the
    message before it tests it, the conversion to a string throws, and the
    answer is the generic 500 instead; no upstream call is made. *)
Theorem C1_shadowed_toString_answered_500 (e : env) :
  typeof (own (body shadowed_toString) "message") <> "string" /\
  observe (Server2.post_api_chat e shadowed_toString) = (Some processing_error, []) /\
  processing_error <> invalid_request.
Proof.
  split; [discriminate|]. split; [|discriminate].
  rewrite Server2_reference. reflexivity.
Qed.

(** C2, counterexample.  The empty string is a string, and both servers
    refuse it with the 400 invalid-request error, even with the provider
    available. *)
Lemma C2_empty_string_refused :
  typeof (own (body empty_message) "message") = "string" /\
  answer (Server2.post_api_chat (answering (Fulfilled hi_there)) empty_message)
    = Some invalid_request /\
  answer (Server.post_api_chat (answering (Fulfilled hi_there)) empty_message)
    = Some invalid_request.
Proof. repeat split; reflexivity. Qed.

(** C2, amended.  For every request whose [message] is a string other than
    the empty one (whitespace-only strings included) no server answers with
    status 400: the gate lets the request through.  The empty string is
    refused with the 400 invalid-request error. *)
Theorem C2_gate_accepts_nonempty_strings (e : env) (req : request) (s : string) :
  own (body req) "message" = JStr s ->
  (s <> EmptyString ->
     option_map status (answer (Server2.post_api_chat e req)) <> Some 400 /\
     option_map status (answer (Server.post_api_chat e req)) <> Some 400) /\
  (s = EmptyString ->
     observe (Server2.post_api_chat e req) = (Some invalid_request, []) /\
     observe (Server.post_api_chat e req) = (Some invalid_request, [])).
Proof.
  intros Hm. split.
  - intros Hs.
    assert (G : gate (own (body req) "message") = true).
    { apply gate_true. eauto. }
    assert (A : forall verbose,
              option_map status (fst (reference verbose Server2.systemPrompt e req)) <> Some 400).
    { intros verbose.
      destruct (fst (reference verbose Server2.systemPrompt e req)) as [r|] eqn:F;
        [|discriminate].
      pose proof (reference_cases verbose e req r F) as C.
      assert (r <> invalid_request).
      { intros ->. revert F. rewrite (accepted_reference _ _ _ _ _ Hm Hs).
        destruct (require_openai e); [discriminate|].
        destruct (OPENAI_API_KEY e) as [k|]; [|discriminate].
        destruct (String.eqb k EmptyString); [discriminate|].
        cbn [fst]. intros F. apply relay_answer_cases in F.
        destruct F as [F|[F|[F|(c & v & _ & _ & F)]]]; discriminate. }
      destruct C as [->|[->|[->|[->|[->|[->|(k & c & v & _ & _ & ->)]]]]]];
        cbn; congruence. }
    rewrite !answer_observe, Server2_reference, Server_reference.
    split; apply A.
  - intros ->. split.
    + apply Server2_gate_refuses; rewrite ?Hm; trivial. eapply own_string_body; eauto.
    + apply Server_gate_refuses; rewrite ?Hm; trivial. eapply own_string_body; eauto.
Qed.

Lemma C2_gate_accepts_blank :
  option_map status (answer (Server2.post_api_chat not_installed blank)) <> Some 400 /\
  option_map status (answer (Server.post_api_chat not_installed blank)) <> Some 400.
Proof.
  apply (proj1 (C2_gate_accepts_nonempty_strings not_installed blank " " eq_refl)).
  discriminate.
Defined.

(** C3.  For every request that the gate accepts, when the provider is
    unavailable (the module does not load, or no credential is set) both
    servers answer 200 with a [response] field that holds the fixed
    fallback message of the reason, with no [error] field, and make no
    upstream call. *)
Theorem C3_unavailable_provider_falls_back (e : env) (req : request) (reason : string) :
  gate (own (body req) "message") = true ->
  provider_availability e = Unavailable reason ->
  observe (Server2.post_api_chat e req) = (Some (fallback reason), []) /\
  observe (Server.post_api_chat e req) = (Some (fallback reason), []) /\
  status (fallback reason) = 200 /\
  (fallback reason = module_missing_reply \/ fallback reason = no_credential_reply) /\
  has_field "response" (fallback reason) = true /\
  has_field "error" (fallback reason) = false.
Proof.
  intros G A. apply gate_true in G. destruct G as (s & Hm & Hs).
  rewrite Server2_reference, Server_reference.
  rewrite !(accepted_reference _ _ _ _ _ Hm Hs).
  unfold provider_availability in A.
  destruct (require_openai e) as [msg|create].
  - injection A as <-. repeat split; auto.
  - destruct (OPENAI_API_KEY e) as [k|].
    + destruct (String.eqb k EmptyString); [|discriminate].
      injection A as <-. repeat split; auto.
    + injection A as <-. repeat split; auto.
Qed.

Lemma C3_not_installed_falls_back :
  observe (Server2.post_api_chat not_installed hello) = (Some module_missing_reply, []) /\
  observe (Server.post_api_chat no_key hello) = (Some no_credential_reply, []).
Proof.
  split.
  - apply (C3_unavailable_provider_falls_back not_installed hello "module-missing");
      reflexivity.
  - apply (C3_unavailable_provider_falls_back no_key hello "no-credential");
      reflexivity.
Defined.

(** C4 (the code departs from it).  A request that the gate accepts, with
    the provider available and an upstream call that returns a completion
    with a text content, must be answered 200 with [{response: text}].  For
    a completion whose [usage.total_tokens] is the object [{"toString": 1}]
    the first server throws while it prints the token count, after the
    call, and answers the generic 500; the second server answers 200 with
    the text. *)
Theorem C4_unprintable_usage_answered_500 :
  first_content unprintable_usage = ret (JStr "Hi there!") /\
  observe (Server2.post_api_chat (answering (Fulfilled unprintable_usage)) hello) =
    (Some processing_error,
     [("sk-test", outbound Server2.systemPrompt (JStr "Hello"))]) /\
  observe (Server.post_api_chat (answering (Fulfilled unprintable_usage)) hello) =
    (Some {| status := 200; json := [("response", JStr "Hi there!")] |},
     [("sk-test", outbound Server2.systemPrompt (JStr "Hello"))]).
Proof.
  split; [reflexivity|].
  rewrite Server2_reference, Server_reference. split; reflexivity.
Qed.

(** X17.  For every request that the gate accepts, with the provider
    available and an upstream call that returns a completion whose first
    content is a text: the one outbound call carries exactly a system
    message with the persona prompt and a user message with the raw
    [message], [max_tokens] 500 and [temperature] 0.7, and the second server
    answers 200 with the body [{response: text}] and nothing else; so does
    the first server when it can print the token count. *)
Theorem X17_relay_success_when_printable (e : env) (req : request) (k : string) (c : jsval) (text : string) :
  relay_settles e req k (Fulfilled c) ->
  first_content c = ret (JStr text) ->
  let call := outbound Server2.systemPrompt (own (body req) "message") in
  let reply := {| status := 200; json := [("response", JStr text)] |} in
  observe (Server.post_api_chat e req) = (Some reply, [(k, call)]) /\
  (printable (tokens_or_NA c) = true ->
   observe (Server2.post_api_chat e req) = (Some reply, [(k, call)])) /\
  messages call = [ {| role := "system"; content := JStr Server2.systemPrompt |};
                    {| role := "user"; content := own (body req) "message" |} ] /\
  typeof (own (body req) "message") = "string" /\
  max_tokens call = 500 /\
  temperature call = 7 # 10 /\
  Server.systemPrompt = Server2.systemPrompt.
Proof.
  intros S F call reply.
  rewrite Server2_reference, Server_reference.
  change Server.systemPrompt with Server2.systemPrompt.
  rewrite !(relay_settles_reference _ _ _ _ _ S).
  unfold relay_answer. rewrite F. cbn [snd ret andb].
  split; [reflexivity|]. split.
  - intros P. rewrite P. reflexivity.
  - repeat split. now apply (relay_settles_string _ _ _ _ S).
Qed.

Lemma hello_settles (p : settled) : relay_settles (answering p) hello "sk-test" p.
Proof.
  exists "Hello", (fun _ _ => p). repeat split; discriminate.
Defined.

Lemma X17_hello_hi_there :
  observe (Server.post_api_chat (answering (Fulfilled hi_there)) hello) =
    (Some {| status := 200; json := [("response", JStr "Hi there!")] |},
     [("sk-test", outbound Server2.systemPrompt (JStr "Hello"))]) /\
  observe (Server2.post_api_chat (answering (Fulfilled hi_there)) hello) =
    (Some {| status := 200; json := [("response", JStr "Hi there!")] |},
     [("sk-test", outbound Server2.systemPrompt (JStr "Hello"))]).
Proof.
  pose proof (X17_relay_success_when_printable (answering (Fulfilled hi_there)) hello "sk-test" hi_there
                "Hi there!" (hello_settles _) eq_refl) as H.
  split.
  - exact (proj1 H).
  - exact (proj1 (proj2 H) eq_refl).
Defined.

(** C5 (the code departs from it).  Every upstream failure without one of
    the two codes must be answered 500 with the generic processing-error
    body.  When the upstream call rejects with [null] or [undefined],
    reading [error.code] in the [catch] block throws and neither server
    sends a response. *)
Theorem C5_nullish_rejection_unanswered :
  answer (Server2.post_api_chat (answering (Rejected JNull)) hello) = None /\
  answer (Server.post_api_chat (answering (Rejected JNull)) hello) = None /\
  answer (Server2.post_api_chat (answering (Rejected JUndefined)) hello) = None /\
  answer (Server.post_api_chat (answering (Rejected JUndefined)) hello) = None.
Proof.
  rewrite !answer_observe, !Server2_reference, !Server_reference.
  repeat split; reflexivity.
Qed.

(** X18.  For every upstream failure raised by the relay call with a reason
    that is not [undefined] or [null]: the code [insufficient_quota] gives
    503 with the service-unavailable body, the code [invalid_api_key] gives
    500 with the configuration-error body, and every other reason gives 500
    with the generic processing-error body, on both servers. *)
Theorem X18_upstream_failure_translation (e : env) (req : request) (k : string) (err : jsval) :
  relay_settles e req k (Rejected err) ->
  nullish err = false ->
  (own err "code" = JStr "insufficient_quota" ->
     answer (Server2.post_api_chat e req) = Some quota_error /\
     answer (Server.post_api_chat e req) = Some quota_error) /\
  (own err "code" = JStr "invalid_api_key" ->
     answer (Server2.post_api_chat e req) = Some configuration_error /\
     answer (Server.post_api_chat e req) = Some configuration_error) /\
  (own err "code" <> JStr "insufficient_quota" ->
   own err "code" <> JStr "invalid_api_key" ->
     answer (Server2.post_api_chat e req) = Some processing_error /\
     answer (Server.post_api_chat e req) = Some processing_error).
Proof.
  intros S N.
  rewrite !answer_observe, Server2_reference, Server_reference.
  change Server.systemPrompt with Server2.systemPrompt.
  rewrite !(relay_settles_reference _ _ _ _ _ S).
  cbn [fst relay_answer]. unfold catch_answer. rewrite N.
  split; [|split].
  - intros H. now rewrite (translate_quota _ H).
  - intros H. now rewrite (translate_credential _ H).
  - intros H1 H2. now rewrite (translate_other _ H1 H2).
Qed.

Lemma X18_quota_gives_503 :
  answer (Server2.post_api_chat (answering (Rejected quota_exceeded)) hello)
    = Some quota_error /\
  answer (Server.post_api_chat (answering (Rejected quota_exceeded)) hello)
    = Some quota_error.
Proof.
  apply (proj1 (X18_upstream_failure_translation
                  (answering (Rejected quota_exceeded)) hello "sk-test" quota_exceeded
                  (hello_settles _) eq_refl)).
  reflexivity.
Defined.

(** C6.  The translation of an upstream failure depends on the error's
    code alone: two relay calls that fail with errors of the same code
    (whatever their messages, their other properties, the requests and the
    credentials) get the same answer, on either server, and this answer is
    one of the three fixed error bodies, which hold nothing of the error or
    of the credential. *)
Theorem C6_classification_by_code_only
    (e1 e2 : env) (req1 req2 : request) (k1 k2 : string) (err1 err2 : jsval) :
  relay_settles e1 req1 k1 (Rejected err1) ->
  relay_settles e2 req2 k2 (Rejected err2) ->
  nullish err1 = false ->
  nullish err2 = false ->
  own err1 "code" = own err2 "code" ->
  answer (Server2.post_api_chat e1 req1) = answer (Server2.post_api_chat e2 req2) /\
  answer (Server.post_api_chat e1 req1) = answer (Server.post_api_chat e2 req2) /\
  answer (Server2.post_api_chat e1 req1) = Some (translate (own err1 "code")) /\
  answer (Server.post_api_chat e1 req1) = Some (translate (own err1 "code")) /\
  (translate (own err1 "code") = quota_error \/
   translate (own err1 "code") = configuration_error \/
   translate (own err1 "code") = processing_error).
Proof.
  intros S1 S2 N1 N2 C.
  rewrite !answer_observe, !Server2_reference, !Server_reference.
  change Server.systemPrompt with Server2.systemPrompt.
  rewrite !(relay_settles_reference _ _ _ _ _ S1), !(relay_settles_reference _ _ _ _ _ S2).
  cbn [fst relay_answer]. unfold catch_answer. rewrite N1, N2, C.
  repeat split. rewrite <- C. apply translate_cases.
Qed.

Lemma blank_settles (p : settled) : relay_settles (other_key p) blank "sk-other" p.
Proof.
  exists " ", (fun _ _ => p). repeat split; discriminate.
Defined.

Lemma C6_same_code_same_answer :
  answer (Server2.post_api_chat (answering (Rejected quota_exceeded)) hello) =
  answer (Server2.post_api_chat (other_key (Rejected quota_exceeded_again)) blank) /\
  answer (Server.post_api_chat (answering (Rejected quota_exceeded)) hello) =
  answer (Server.post_api_chat (other_key (Rejected quota_exceeded_again)) blank).
Proof.
  pose proof (C6_classification_by_code_only
                (answering (Rejected quota_exceeded))
                (other_key (Rejected quota_exceeded_again))
                hello blank "sk-test" "sk-other" quota_exceeded quota_exceeded_again
                (hello_settles _) (blank_settles _) eq_refl eq_refl eq_refl) as H.
  split.
  - exact (proj1 H).
  - exact (proj1 (proj2 H)).
Defined.

(** C7.  The availability check looks at the module first and at the
    credential second, and calls nothing upstream: a module that does not
    load gives the module-missing fallback whatever the credential is; a
    loaded module with an absent or empty credential gives the no-credential
    fallback; otherwise the provider is available and the request goes to
    the relay, whose call is the only upstream call. *)
Theorem C7_availability_check (e : env) (req : request) :
  gate (own (body req) "message") = true ->
  (forall msg, require_openai e = ModuleNotFound msg ->
     provider_availability e = Unavailable "module-missing") /\
  (forall create, require_openai e = Module create ->
     OPENAI_API_KEY e = None \/ OPENAI_API_KEY e = Some EmptyString ->
     provider_availability e = Unavailable "no-credential") /\
  (forall create k, require_openai e = Module create ->
     OPENAI_API_KEY e = Some k -> k <> EmptyString ->
     provider_availability e = Available) /\
  fallback "module-missing" <> fallback "no-credential" /\
  match provider_availability e with
  | Unavailable reason =>
      observe (Server2.post_api_chat e req) = (Some (fallback reason), []) /\
      observe (Server.post_api_chat e req) = (Some (fallback reason), [])
  | Available =>
      exists k,
        OPENAI_API_KEY e = Some k /\
        upstream_calls (trace (Server2.post_api_chat e req)) =
          [(k, outbound Server2.systemPrompt (own (body req) "message"))] /\
        upstream_calls (trace (Server.post_api_chat e req)) =
          [(k, outbound Server.systemPrompt (own (body req) "message"))]
  end.
Proof.
  intros G. apply gate_true in G. destruct G as (s & Hm & Hs).
  rewrite !calls_observe, Server2_reference, Server_reference.
  rewrite !(accepted_reference _ _ _ _ _ Hm Hs), Hm.
  unfold provider_availability.
  split; [|split; [|split; [|split]]].
  - now intros msg ->.
  - intros create -> [-> | ->]; reflexivity.
  - intros create k -> -> Hk. apply String.eqb_neq in Hk. now rewrite Hk.
  - discriminate.
  - destruct (require_openai e) as [msg|create]; [split; reflexivity|].
    destruct (OPENAI_API_KEY e) as [k|]; [|split; reflexivity].
    destruct (String.eqb k EmptyString); [split; reflexivity|].
    exists k. repeat split.
Qed.

Lemma C7_module_checked_first :
  observe (Server2.post_api_chat (env_of (ModuleNotFound "Cannot find module 'openai'") None) hello)
    = (Some module_missing_reply, []) /\
  observe (Server.post_api_chat (env_of (ModuleNotFound "Cannot find module 'openai'") None) hello)
    = (Some module_missing_reply, []).
Proof.
  exact (proj2 (proj2 (proj2 (proj2
    (C7_availability_check (env_of (ModuleNotFound "Cannot find module 'openai'") None)
       hello eq_refl))))).
Defined.

(** C8 (the code departs from it).  Every body must hold exactly one of
    [response] and [error].  For a completion whose first message has no
    [content] the relay answers 200 with the empty object: neither
    [response] nor [error]. *)
Lemma C8_no_content_neither_field :
  answer (Server.post_api_chat (answering (Fulfilled no_content)) hello)
    = Some {| status := 200; json := [] |} /\
  has_field "response" {| status := 200; json := [] |} = false /\
  has_field "error" {| status := 200; json := [] |} = false.
Proof. repeat split; reflexivity. Qed.

(** X19.  Every JSON body that the chat endpoint, the 404 handler or the
    error handler of either server returns holds at most one of the fields
    [response] and [error]; [error] is there exactly on the answers of
    status 400, 404, 500 and 503, and [response] only on answers of status
    200.  An answer of status 200 without [response] is the empty object,
    and there is one only when the upstream call of the request returned a
    completion whose first content reads [undefined]. *)
Theorem X19_envelope (e : env) (req : request) (r : response) :
  returned e req r ->
  has_field "response" r && has_field "error" r = false /\
  (has_field "error" r = true <->
   status r = 400 \/ status r = 404 \/ status r = 500 \/ status r = 503) /\
  (has_field "response" r = true -> status r = 200) /\
  (status r = 200 -> has_field "response" r = false ->
   json r = [] /\
   exists k c, relay_settles e req k (Fulfilled c) /\ first_content c = ret JUndefined).
Proof.
  assert (Fixed : forall st msg,
            (st = 400 \/ st = 404 \/ st = 500 \/ st = 503) ->
            let r' := {| status := st; json := [("error", JStr msg)] |} in
            has_field "response" r' && has_field "error" r' = false /\
            (has_field "error" r' = true <->
             status r' = 400 \/ status r' = 404 \/ status r' = 500 \/ status r' = 503) /\
            (has_field "response" r' = true -> status r' = 200) /\
            (status r' = 200 -> has_field "response" r' = false ->
             json r' = [] /\
             exists k c, relay_settles e req k (Fulfilled c) /\
                         first_content c = ret JUndefined)).
  { intros st msg Hst r'.
    destruct Hst as [->|[->|[->| ->]]]; cbn; repeat split; auto; discriminate. }
  assert (Chat : forall verbose,
            fst (reference verbose Server2.systemPrompt e req) = Some r ->
            has_field "response" r && has_field "error" r = false /\
            (has_field "error" r = true <->
             status r = 400 \/ status r = 404 \/ status r = 500 \/ status r = 503) /\
            (has_field "response" r = true -> status r = 200) /\
            (status r = 200 -> has_field "response" r = false ->
             json r = [] /\
             exists k c, relay_settles e req k (Fulfilled c) /\
                         first_content c = ret JUndefined)).
  { intros verbose F. apply reference_cases in F.
    destruct F as [->|[->|[->|[->|[->|[->|(k & c & v & S & Fc & ->)]]]]]].
    - apply Fixed. tauto.
    - cbn. repeat split; trivial; try discriminate.
      intros [H|[H|[H|H]]]; discriminate.
    - cbn. repeat split; trivial; try discriminate.
      intros [H|[H|[H|H]]]; discriminate.
    - apply Fixed. tauto.
    - apply Fixed. tauto.
    - apply Fixed. tauto.
    - destruct v; cbn; repeat split; trivial; try discriminate;
        try (intros [H|[H|[H|H]]]; discriminate).
      exists k, c. auto. }
  intros [H|[H|[->|[->|[[err H]|[err H]]]]]].
  - rewrite answer_observe, Server2_reference in H. now apply (Chat true).
  - rewrite answer_observe, Server_reference in H. now apply (Chat false).
  - apply Fixed. tauto.
  - apply Fixed. tauto.
  - injection H as <-. apply Fixed. tauto.
  - injection H as <-. apply Fixed. tauto.
Qed.

Lemma X19_hi_there_has_response :
  has_field "response" {| status := 200; json := [("response", JStr "Hi there!")] |}
    && has_field "error" {| status := 200; json := [("response", JStr "Hi there!")] |}
  = false.
Proof.
  refine (proj1 (X19_envelope (answering (Fulfilled hi_there)) hello _ _)).
  left. reflexivity.
Defined.

(** C9.  For every request each server makes at most one upstream
    completion call: exactly one when the gate accepts the request and the
    provider is available, none otherwise. *)
Theorem C9_at_most_one_upstream_call (e : env) (req : request) :
  length (upstream_calls (trace (Server2.post_api_chat e req))) =
    (if relay_reached e req then 1%nat else 0%nat) /\
  length (upstream_calls (trace (Server.post_api_chat e req))) =
    (if relay_reached e req then 1%nat else 0%nat) /\
  (length (upstream_calls (trace (Server2.post_api_chat e req))) <= 1)%nat /\
  (length (upstream_calls (trace (Server.post_api_chat e req))) <= 1)%nat.
Proof.
  rewrite !calls_observe, Server2_reference, Server_reference.
  rewrite !calls_reference.
  destruct (relay_reached e req); repeat split; lia.
Qed.

(** C10 (the code departs from it).  The two servers must answer every
    request alike.  For the JSON body [{"message": {"toString": 1}}] the
    first server answers the generic 500 and the second the 400
    invalid-request error. *)
Theorem C10_servers_differ_on_shadowed_toString (e : env) :
  answer (Server2.post_api_chat e shadowed_toString) = Some processing_error /\
  answer (Server.post_api_chat e shadowed_toString) = Some invalid_request /\
  status processing_error <> status invalid_request.
Proof.
  rewrite !answer_observe, Server2_reference, Server_reference.
  repeat split. discriminate.
Qed.

(** * More properties *)

Lemma Get0_run v : nullish v = false -> Get0 v = ret (item0 v).
Proof. destruct v; try discriminate; reflexivity. Qed.

(** Reading the first content of a malformed completion throws a
    TypeError. *)
Lemma first_content_malformed c :
  malformed c = true -> exists msg, first_content c = throw (TypeError msg).
Proof.
  unfold malformed, first_message, first_content. intros H.
  destruct (nullish c) eqn:N1.
  { destruct c; try discriminate; eexists; reflexivity. }
  rewrite (Get_run _ _ N1), bind_ret.
  destruct (nullish (own c "choices")) eqn:N2.
  { destruct (own c "choices"); try discriminate; eexists; reflexivity. }
  rewrite (Get0_run _ N2), bind_ret.
  destruct (nullish (item0 (own c "choices"))) eqn:N3.
  { destruct (item0 (own c "choices")); try discriminate; eexists; reflexivity. }
  rewrite (Get_run _ _ N3), bind_ret.
  cbn [orb] in H.
  destruct (own (item0 (own c "choices")) "message"); try discriminate;
    eexists; reflexivity.
Qed.

(** Reading the first content of any other completion gives the [content]
    of its first message. *)
Lemma first_content_well_formed c :
  malformed c = false -> first_content c = ret (own (first_message c) "content").
Proof.
  unfold malformed, first_message, first_content. intros H.
  apply orb_false_iff in H. destruct H as [H N4].
  apply orb_false_iff in H. destruct H as [H N3].
  apply orb_false_iff in H. destruct H as [N1 N2].
  rewrite (Get_run _ _ N1), bind_ret, (Get0_run _ N2), bind_ret.
  rewrite (Get_run _ _ N3), bind_ret. now apply Get_run.
Qed.

(** The three ways of the relay. *)
Lemma relay_answer_inv verbose p :
  (exists err, p = Rejected err /\ relay_answer verbose p = catch_answer err) \/
  (exists c, p = Fulfilled c /\ malformed c = true /\
             relay_answer verbose p = Some processing_error) \/
  (exists c, p = Fulfilled c /\ malformed c = false /\
             relay_answer verbose p =
             if verbose && negb (printable (own (first_message c) "content")
                                 && printable (tokens_or_NA c))
             then Some processing_error
             else Some (res_json [("response", own (first_message c) "content")])).
Proof.
  destruct p as [c|err]; [|left; eauto].
  right. destruct (malformed c) eqn:Mc.
  - left. exists c. repeat split; trivial.
    destruct (first_content_malformed c Mc) as [msg F].
    unfold relay_answer. now rewrite F.
  - right. exists c. repeat split; trivial.
    unfold relay_answer. now rewrite (first_content_well_formed c Mc).
Qed.

(** The five ways of a request through either server. *)
Lemma reference_inv verbose e req :
  let m := own (body req) "message" in
  let r := reference verbose Server2.systemPrompt e req in
  (nullish (body req) = true /\ r = (Some processing_error, [])) \/
  (nullish (body req) = false /\ verbose = true /\ printable m = false /\
   r = (Some processing_error, [])) \/
  (nullish (body req) = false /\ gate m = false /\
   (verbose = true -> printable m = true) /\ r = (Some invalid_request, [])) \/
  (gate m = true /\
   exists reason, provider_availability e = Unavailable reason /\
                  r = (Some (fallback reason), [])) \/
  (gate m = true /\
   exists k p, relay_settles e req k p /\
               r = (relay_answer verbose p, [(k, outbound Server2.systemPrompt m)])).
Proof.
  intros m r. subst r. unfold reference. fold m.
  destruct (nullish (body req)) eqn:Nb; [left; auto|].
  destruct verbose; cbn [andb].
  - destruct (printable m) eqn:P; cbn [negb].
    2:{ right; left. auto. }
    destruct (gate m) eqn:G; cbn [negb].
    2:{ right; right; left. auto. }
    right; right; right.
    pose proof G as G'. apply gate_true in G'. destruct G' as (s & Hm & Hs).
    unfold provider_availability.
    destruct (require_openai e) as [msg|create] eqn:R; [left; eauto|].
    destruct (OPENAI_API_KEY e) as [k|] eqn:K; [|left; eauto].
    destruct (String.eqb k EmptyString) eqn:Ek; [left; eauto|].
    right. split; trivial. eexists k, _. split; [|reflexivity].
    exists s, create. apply String.eqb_neq in Ek. rewrite Hm. repeat split; trivial.
  - destruct (gate m) eqn:G; cbn [negb].
    2:{ right; right; left. repeat split; trivial. discriminate. }
    right; right; right.
    pose proof G as G'. apply gate_true in G'. destruct G' as (s & Hm & Hs).
    unfold provider_availability.
    destruct (require_openai e) as [msg|create] eqn:R; [left; eauto|].
    destruct (OPENAI_API_KEY e) as [k|] eqn:K; [|left; eauto].
    destruct (String.eqb k EmptyString) eqn:Ek; [left; eauto|].
    right. split; trivial. eexists k, _. split; [|reflexivity].
    exists s, create. apply String.eqb_neq in Ek. rewrite Hm. repeat split; trivial.
Qed.

Lemma relay_settles_unique e req k1 p1 k2 p2 :
  relay_settles e req k1 p1 -> relay_settles e req k2 p2 -> k1 = k2 /\ p1 = p2.
Proof.
  intros (s1 & c1 & M1 & _ & R1 & K1 & _ & P1) (s2 & c2 & M2 & _ & R2 & K2 & _ & P2).
  rewrite M1 in M2. injection M2 as <-.
  rewrite R1 in R2. injection R2 as <-.
  rewrite K1 in K2. injection K2 as <-.
  split; congruence.
Qed.

Lemma relay_settles_gate e req k p :
  relay_settles e req k p -> gate (own (body req) "message") = true.
Proof. intros (s & c & Hm & Hs & _). apply gate_true. eauto. Qed.

Lemma relay_settles_available e req k p :
  relay_settles e req k p -> provider_availability e = Available.
Proof.
  intros (s & c & _ & _ & R & K & Hk & _). unfold provider_availability.
  rewrite R, K. apply String.eqb_neq in Hk. now rewrite Hk.
Qed.

Lemma fallback_status reason : status (fallback reason) = 200.
Proof. unfold fallback. now destruct (String.eqb reason "module-missing"). Qed.

Lemma catch_answer_status err r :
  catch_answer err = Some r -> status r = 500 \/ status r = 503.
Proof.
  intros H. apply catch_answer_cases in H. destruct H as [->|[->| ->]]; auto.
Qed.

Lemma relay_answer_status verbose p r :
  relay_answer verbose p = Some r -> status r = 200 \/ status r = 500 \/ status r = 503.
Proof.
  intros H. apply relay_answer_cases in H.
  destruct H as [->|[->|[->|(c & v & _ & _ & ->)]]]; auto.
Qed.

Lemma Server_inv e req :
  observe (Server.post_api_chat e req) = reference false Server2.systemPrompt e req.
Proof. apply Server_reference. Qed.

(** X1.  The second server answers 400 exactly to the requests with a body
    whose [message] the gate refuses (absent, not a string, or the empty
    string); it then answers with the invalid-request error and calls
    nothing upstream, whatever the state of the provider. *)
Theorem X1_second_server_400 (e : env) (req : request) :
  (nullish (body req) = false -> gate (own (body req) "message") = false ->
   observe (Server.post_api_chat e req) = (Some invalid_request, [])) /\
  (option_map status (answer (Server.post_api_chat e req)) = Some 400 ->
   nullish (body req) = false /\ gate (own (body req) "message") = false).
Proof.
  split; [apply Server_gate_refuses|].
  rewrite answer_observe, Server_inv.
  destruct (reference_inv false e req)
    as [[_ ->]|[(_ & F & _)|[(Nb & G & _ & _)|[(_ & reason & _ & ->)|(_ & k & p & _ & ->)]]]];
    cbn [fst option_map]; try discriminate; auto.
  - rewrite fallback_status. discriminate.
  - destruct (relay_answer false p) as [r|] eqn:A; [|discriminate].
    cbn. intros [= H]. apply relay_answer_status in A. lia.
Qed.

Lemma X1_number_message_refused :
  observe (Server.post_api_chat not_installed number_message) = (Some invalid_request, []) /\
  observe (Server.post_api_chat (answering (Fulfilled hi_there)) array_body)
    = (Some invalid_request, []).
Proof.
  split.
  - apply (proj1 (X1_second_server_400 not_installed number_message)); reflexivity.
  - apply (proj1 (X1_second_server_400 (answering (Fulfilled hi_there)) array_body));
      reflexivity.
Defined.

(** X2.  To a body whose [message] is absent or not a string the first
    server answers without an upstream call: the 400 invalid-request error
    when the message can be printed, the generic 500 when it cannot.  Every
    message that is not an array or an object can be printed. *)
Theorem X2_first_server_non_string (e : env) (req : request) :
  nullish (body req) = false ->
  typeof (own (body req) "message") <> "string" ->
  observe (Server2.post_api_chat e req) =
    (Some (if printable (own (body req) "message")
           then invalid_request else processing_error), []) /\
  match own (body req) "message" with
  | JArr _ | JObj _ => True
  | _ => printable (own (body req) "message") = true
  end.
Proof.
  intros Nb T. split.
  - destruct (printable (own (body req) "message")) eqn:P.
    + now apply Server2_refuses_printable_non_strings.
    + rewrite Server2_reference. unfold reference. now rewrite Nb, P.
  - destruct (own (body req) "message") as [| |[|]| | | |]; trivial.
Qed.

Lemma X2_number_message_refused :
  observe (Server2.post_api_chat (answering (Fulfilled hi_there)) number_message)
    = (Some invalid_request, []).
Proof.
  apply (proj1 (X2_first_server_non_string (answering (Fulfilled hi_there)) number_message
                  eq_refl ltac:(discriminate))).
Defined.

(** X3.  When [req.body] is [undefined] or [null] the destructuring of the
    first statement throws: both servers answer the generic 500, not the
    400, and call nothing upstream. *)
Theorem X3_missing_body (e : env) (req : request) :
  nullish (body req) = true ->
  observe (Server2.post_api_chat e req) = (Some processing_error, []) /\
  observe (Server.post_api_chat e req) = (Some processing_error, []).
Proof.
  intros Nb. rewrite Server2_reference, Server_reference.
  unfold reference. now rewrite Nb.
Qed.

Lemma X3_no_body :
  observe (Server2.post_api_chat not_installed no_body) = (Some processing_error, []) /\
  observe (Server.post_api_chat not_installed no_body) = (Some processing_error, []).
Proof. apply (X3_missing_body not_installed no_body eq_refl). Defined.

(** X4.  When the upstream call returns a completion without a first
    message (the completion, its [choices], the first choice or its
    [message] is [undefined] or [null]: an empty list of choices, say),
    both servers answer the generic 500, after the one upstream call. *)
Theorem X4_malformed_completion (e : env) (req : request) (k : string) (c : jsval) :
  relay_settles e req k (Fulfilled c) ->
  malformed c = true ->
  observe (Server2.post_api_chat e req) =
    (Some processing_error, [(k, outbound Server2.systemPrompt (own (body req) "message"))]) /\
  observe (Server.post_api_chat e req) =
    (Some processing_error, [(k, outbound Server2.systemPrompt (own (body req) "message"))]).
Proof.
  intros S Mc. rewrite Server2_reference, Server_inv.
  rewrite !(relay_settles_reference _ _ _ _ _ S).
  destruct (first_content_malformed c Mc) as [msg F].
  unfold relay_answer. rewrite F. split; reflexivity.
Qed.

Lemma X4_no_choices :
  answer (Server2.post_api_chat (answering (Fulfilled no_choices)) hello)
    = Some processing_error /\
  answer (Server.post_api_chat (answering (Fulfilled no_choices)) hello)
    = Some processing_error.
Proof.
  pose proof (X4_malformed_completion (answering (Fulfilled no_choices)) hello "sk-test"
                no_choices (hello_settles _) eq_refl) as H.
  split.
  - exact (f_equal fst (proj1 H)).
  - exact (f_equal fst (proj2 H)).
Defined.

Lemma json_stable_defined v : json_stable v = true -> v <> JUndefined.
Proof. now destruct v. Qed.

(** X5.  When the upstream call returns a completion with a first
    message whose [content] is a value that JSON carries unchanged ([null],
    a boolean, a string, a finite number, an array or object of such
    values), the second server answers 200 with [{response: content}]: a
    [null] content gives [{response: null}].  So does the first server when
    it can print the content and the token count. *)
Theorem X5_content_as_it_is (e : env) (req : request) (k : string) (c : jsval) :
  relay_settles e req k (Fulfilled c) ->
  malformed c = false ->
  json_stable (own (first_message c) "content") = true ->
  let v := own (first_message c) "content" in
  let call := outbound Server2.systemPrompt (own (body req) "message") in
  let reply := {| status := 200; json := [("response", v)] |} in
  observe (Server.post_api_chat e req) = (Some reply, [(k, call)]) /\
  (printable v = true -> printable (tokens_or_NA c) = true ->
   observe (Server2.post_api_chat e req) = (Some reply, [(k, call)])).
Proof.
  intros S Mc J v call reply. rewrite Server2_reference, Server_inv.
  rewrite !(relay_settles_reference _ _ _ _ _ S).
  unfold relay_answer. rewrite (first_content_well_formed c Mc). cbn [snd ret andb].
  fold v.
  assert (R : res_json [("response", v)] = reply).
  { apply json_stable_defined in J. fold v in J. subst reply.
    destruct v; trivial. now elim J. }
  rewrite R. split; [reflexivity|].
  intros -> ->. reflexivity.
Qed.

Lemma X5_null_content :
  observe (Server.post_api_chat (answering (Fulfilled null_content)) hello) =
    (Some {| status := 200; json := [("response", JNull)] |},
     [("sk-test", outbound Server2.systemPrompt (JStr "Hello"))]).
Proof.
  exact (proj1 (X5_content_as_it_is (answering (Fulfilled null_content)) hello "sk-test"
                  null_content (hello_settles _) eq_refl eq_refl)).
Defined.

Lemma relay_answer_none verbose p :
  relay_answer verbose p = None <-> exists err, p = Rejected err /\ nullish err = true.
Proof.
  split.
  - destruct (relay_answer_inv verbose p)
      as [(err & -> & ->)|[(c & -> & _ & ->)|(c & -> & _ & ->)]].
    + unfold catch_answer. destruct (nullish err) eqn:N; [eauto|discriminate].
    + discriminate.
    + destruct (verbose && _); discriminate.
  - intros (err & -> & N). cbn. unfold catch_answer. now rewrite N.
Qed.

Lemma reference_none verbose e req :
  fst (reference verbose Server2.systemPrompt e req) = None <->
  exists k err, relay_settles e req k (Rejected err) /\ nullish err = true.
Proof.
  split.
  - destruct (reference_inv verbose e req)
      as [[_ ->]|[(_ & _ & _ & ->)|[(_ & _ & _ & ->)|[(_ & reason & _ & ->)|(_ & k & p & S & ->)]]]];
      cbn [fst]; try discriminate.
    intros H. apply relay_answer_none in H. destruct H as (err & -> & N). eauto.
  - intros (k & err & S & N). rewrite (relay_settles_reference _ _ _ _ _ S).
    cbn [fst]. apply relay_answer_none. eauto.
Qed.

(** X6.  Each server answers every request, with one exception: when the
    upstream call rejects with [undefined] or [null], reading [error.code]
    in the [catch] block throws and no response is sent. *)
Theorem X6_no_response_only_for_nullish_rejection (e : env) (req : request) :
  (answer (Server2.post_api_chat e req) = None <->
   exists k err, relay_settles e req k (Rejected err) /\ nullish err = true) /\
  (answer (Server.post_api_chat e req) = None <->
   exists k err, relay_settles e req k (Rejected err) /\ nullish err = true).
Proof.
  rewrite !answer_observe, Server2_reference, Server_inv.
  split; apply reference_none.
Qed.

Lemma relay_answer_503 verbose p :
  option_map status (relay_answer verbose p) = Some 503 <->
  exists err, p = Rejected err /\ own err "code" = JStr "insufficient_quota".
Proof.
  split.
  - destruct (relay_answer_inv verbose p)
      as [(err & -> & ->)|[(c & -> & _ & ->)|(c & -> & _ & ->)]].
    + unfold catch_answer, translate. destruct (nullish err); [discriminate|].
      destruct (strict_eq_string (own err "code") "insufficient_quota") eqn:E.
      * intros _. apply strict_eq_string_true in E. eauto.
      * destruct (strict_eq_string (own err "code") "invalid_api_key"); discriminate.
    + discriminate.
    + destruct (verbose && _); discriminate.
  - intros (err & -> & C). cbn. unfold catch_answer.
    assert (N : nullish err = false) by (destruct err; try discriminate; reflexivity).
    now rewrite N, (translate_quota _ C).
Qed.

Lemma reference_503 verbose e req :
  option_map status (fst (reference verbose Server2.systemPrompt e req)) = Some 503 <->
  exists k err, relay_settles e req k (Rejected err) /\
                own err "code" = JStr "insufficient_quota".
Proof.
  split.
  - destruct (reference_inv verbose e req)
      as [[_ ->]|[(_ & _ & _ & ->)|[(_ & _ & _ & ->)|[(_ & reason & _ & ->)|(_ & k & p & S & ->)]]]];
      cbn [fst option_map]; try discriminate.
    + rewrite fallback_status. discriminate.
    + intros H. apply relay_answer_503 in H. destruct H as (err & -> & C). eauto.
  - intros (k & err & S & C). rewrite (relay_settles_reference _ _ _ _ _ S).
    cbn [fst]. apply relay_answer_503. eauto.
Qed.

Lemma reference_statuses verbose e req r :
  fst (reference verbose Server2.systemPrompt e req) = Some r ->
  status r = 200 \/ status r = 400 \/ status r = 500 \/ status r = 503.
Proof.
  intros H. apply reference_cases in H.
  destruct H as [->|[->|[->|[->|[->|[->|(k & c & v & _ & _ & ->)]]]]]]; cbn; auto.
Qed.

(** X7.  The chat endpoint of either server answers with status 200, 400,
    500 or 503 and no other; it answers 503 exactly when the upstream call
    rejects with an error whose [code] is [insufficient_quota]. *)
Theorem X7_statuses (e : env) (req : request) :
  (forall r, answer (Server2.post_api_chat e req) = Some r \/
             answer (Server.post_api_chat e req) = Some r ->
             status r = 200 \/ status r = 400 \/ status r = 500 \/ status r = 503) /\
  (option_map status (answer (Server2.post_api_chat e req)) = Some 503 <->
   exists k err, relay_settles e req k (Rejected err) /\
                 own err "code" = JStr "insufficient_quota") /\
  (option_map status (answer (Server.post_api_chat e req)) = Some 503 <->
   exists k err, relay_settles e req k (Rejected err) /\
                 own err "code" = JStr "insufficient_quota").
Proof.
  rewrite !answer_observe, Server2_reference, Server_inv.
  split; [|split; apply reference_503].
  intros r [H|H]; now apply reference_statuses in H.
Qed.

Lemma X7_quota_is_503 :
  option_map status
    (answer (Server.post_api_chat (answering (Rejected quota_exceeded)) hello)) = Some 503.
Proof.
  apply (proj2 (proj2 (proj2 (X7_statuses (answering (Rejected quota_exceeded)) hello)))).
  exists "sk-test", quota_exceeded. split; [apply hello_settles|reflexivity].
Defined.

Lemma X6_null_rejection_unanswered :
  answer (Server.post_api_chat (answering (Rejected JNull)) hello) = None.
Proof.
  apply (proj2 (proj2 (X6_no_response_only_for_nullish_rejection
                         (answering (Rejected JNull)) hello))).
  exists "sk-test", JNull. split; [apply hello_settles|reflexivity].
Defined.

(** ** Traces *)

Lemma console_output_app t1 t2 :
  console_output (t1 ++ t2) = console_output t1 ++ console_output t2.
Proof.
  induction t1 as [|ev t1 IH]; [reflexivity|].
  destruct ev; cbn; now rewrite IH.
Qed.

Lemma alike_refl {A} (m : M A) : alike m m.
Proof. repeat split. Qed.

Lemma alike_bind {A B} (m1 m2 : M A) (f1 f2 : A -> M B) :
  alike m1 m2 -> (forall a, alike (f1 a) (f2 a)) -> alike (bind m1 f1) (bind m2 f2).
Proof.
  destruct m1 as [t1 r1], m2 as [t2 r2]. intros (R & C & U) F. cbn in R, C, U. subst r2.
  unfold bind. destruct r1 as [err|a]; [repeat split; trivial|].
  specialize (F a). destruct (f1 a) as [t1' r1'], (f2 a) as [t2' r2'].
  destruct F as (R' & C' & U'). cbn in R', C', U'. subst r2'.
  repeat split; cbn.
  - now rewrite !console_output_app, C, C'.
  - now rewrite !upstream_calls_app, !map_app, U, U'.
Qed.

Lemma alike_try_catch {A} (m1 m2 : M A) (h : jsval -> M A) :
  alike m1 m2 -> alike (try_catch m1 h) (try_catch m2 h).
Proof.
  destruct m1 as [t1 r1], m2 as [t2 r2]. intros (R & C & U). cbn in R, C, U. subst r2.
  unfold try_catch. destruct r1 as [err|a]; [|repeat split; trivial].
  destruct (h err) as [t' r']. repeat split; cbn.
  - now rewrite !console_output_app, C.
  - now rewrite !upstream_calls_app, !map_app, U.
Qed.

Lemma alike_create create k1 k2 p :
  create k1 p = create k2 p ->
  alike (completions_create create k1 p) (completions_create create k2 p).
Proof.
  intros E. unfold completions_create. rewrite E.
  destruct (create k2 p); repeat split.
Qed.

Lemma truthy_key k : k <> EmptyString -> negb (truthy (of_option (Some k))) = false.
Proof. intros H. cbn. apply String.eqb_neq in H. now rewrite H. Qed.

Ltac alike_step :=
  first [ apply alike_refl
        | apply alike_bind; [apply alike_refl | intros ?] ].

(** X8.  The credential influences a request only as the key of the
    upstream call: for two non-empty credentials to which the upstream
    answers alike, each server ends alike (same response or same failure),
    prints the same console lines and sends the same parameters upstream. *)
Theorem X8_credential_only_in_upstream_call
    (e1 e2 : env) (req : request) (k1 k2 : string) :
  require_openai e1 = require_openai e2 ->
  toISOString_now e1 = toISOString_now e2 ->
  OPENAI_API_KEY e1 = Some k1 -> k1 <> EmptyString ->
  OPENAI_API_KEY e2 = Some k2 -> k2 <> EmptyString ->
  (forall create p, require_openai e1 = Module create -> create k1 p = create k2 p) ->
  alike (Server2.post_api_chat e1 req) (Server2.post_api_chat e2 req) /\
  alike (Server.post_api_chat e1 req) (Server.post_api_chat e2 req).
Proof.
  destruct e1 as [load1 key1 now1], e2 as [load2 key2 now2]. cbn.
  intros <- <- -> N1 -> N2 U.
  split.
  - unfold Server2.post_api_chat. apply alike_try_catch.
    unfold Server2.chat_try. cbn [body require_openai OPENAI_API_KEY toISOString_now].
    cbv zeta. do 8 alike_step.
    destruct (negb (truthy a) || negb (typeof a =? "string")%string); [apply alike_refl|].
    destruct load1 as [msg|create]; [apply alike_refl|].
    rewrite (truthy_key k1 N1), (truthy_key k2 N2).
    alike_step. apply alike_bind; [|intros c; apply alike_refl].
    apply alike_create. now apply U.
  - unfold Server.post_api_chat. apply alike_try_catch.
    unfold Server.chat_try. cbn [body require_openai OPENAI_API_KEY toISOString_now].
    cbv zeta. alike_step.
    destruct (negb (truthy a) || negb (typeof a =? "string")%string); [apply alike_refl|].
    destruct load1 as [msg|create]; [apply alike_refl|].
    rewrite (truthy_key k1 N1), (truthy_key k2 N2).
    apply alike_bind; [|intros c; apply alike_refl].
    apply alike_create. now apply U.
Qed.

Lemma X8_two_keys_alike :
  alike (Server2.post_api_chat (answering (Fulfilled hi_there)) hello)
        (Server2.post_api_chat (other_key (Fulfilled hi_there)) hello) /\
  alike (Server.post_api_chat (answering (Fulfilled hi_there)) hello)
        (Server.post_api_chat (other_key (Fulfilled hi_there)) hello).
Proof.
  apply (X8_credential_only_in_upstream_call
           (answering (Fulfilled hi_there)) (other_key (Fulfilled hi_there))
           hello "sk-test" "sk-other" eq_refl eq_refl eq_refl ltac:(discriminate)
           eq_refl ltac:(discriminate)).
  intros create p [= <-]. reflexivity.
Defined.

Lemma try_catch_emit {A} (ev : event) (k : M A) (h : jsval -> M A) :
  try_catch (emit ev ;; k) h = (ev :: fst (try_catch k h), snd (try_catch k h)).
Proof.
  unfold try_catch, bind, emit.
  destruct k as [t [err|a]]; cbn; [|reflexivity].
  now destruct (h err).
Qed.

Lemma subst_clientIP_text req :
  subst (js_or (of_option (ip req)) (of_option (remoteAddress req))) = ret (clientIP_text req).
Proof.
  unfold clientIP_text, js_or. destruct (ip req) as [a|]; cbn.
  - destruct (String.eqb a EmptyString); cbn; [|reflexivity].
    now destruct (remoteAddress req).
  - now destruct (remoteAddress req).
Qed.

Ltac log_step := unfold console_log; rewrite try_catch_emit; cbn [fst snd].

(** X9.  The first server prints every request that has a body before it
    looks at it: the banner, the time, the client address and, when the
    message can be printed, the message itself with a closing bar come
    first in its trace, ahead of the gate and of any upstream call; so a
    refused message is printed as well.  When the message cannot be printed
    the trace stops after the address, with the line of the [catch]
    block. *)
Theorem X9_first_server_prints_before_the_gate (e : env) (req : request) :
  nullish (body req) = false ->
  match ToString (own (body req) "message") with
  | inr message_s =>
      exists rest,
        trace (Server2.post_api_chat e req) = incoming_lines e req message_s ++ rest
  | inl error =>
      trace (Server2.post_api_chat e req) =
        firstn 3 (incoming_lines e req EmptyString) ++
        [Console Error [JStr "Chat API error:"; error]]
  end.
Proof.
  intros Nb. unfold trace, Server2.post_api_chat, Server2.chat_try.
  rewrite (Get_run _ _ Nb), bind_ret. cbv zeta.
  do 2 log_step. rewrite subst_clientIP_text, bind_ret. log_step.
  rewrite (subst_run (own (body req) "message")).
  destruct (ToString (own (body req) "message")) as [err|s] eqn:T.
  - rewrite bind_throw. rewrite (ToString_error _ _ T). reflexivity.
  - rewrite bind_ret. do 2 log_step. eexists. reflexivity.
Qed.

Lemma X9_empty_message_printed :
  exists rest,
    trace (Server2.post_api_chat not_installed empty_message) =
    incoming_lines not_installed empty_message EmptyString ++ rest.
Proof.
  exact (X9_first_server_prints_before_the_gate not_installed empty_message eq_refl).
Defined.

Lemma try_catch_throw_trace t err :
  fst (try_catch (t, inl err) Server.chat_catch) =
  t ++ [Console Error [JStr "Chat API error:"; err]].
Proof.
  unfold try_catch. destruct (nullish err) eqn:N.
  - destruct (chat_catch_nullish err N) as [e' ->]. reflexivity.
  - rewrite (chat_catch_run err N). reflexivity.
Qed.

(** What the second server prints, way by way. *)
Lemma Server_console_cases e req :
  let m := own (body req) "message" in
  let out := console_output (trace (Server.post_api_chat e req)) in
  (nullish (body req) = true /\
   exists err, out = [(Error, [JStr "Chat API error:"; err])]) \/
  (nullish (body req) = false /\ gate m = false /\ out = []) \/
  (gate m = true /\ exists msg,
     require_openai e = ModuleNotFound msg /\
     out = [(Error, [JStr "OpenAI package not installed:"; JStr msg])]) \/
  (gate m = true /\ provider_availability e = Unavailable "no-credential" /\
   out = [(Warn, [JStr "OpenAI API key not configured"])]) \/
  (exists k c, relay_settles e req k (Fulfilled c) /\ malformed c = false /\ out = []) \/
  (exists k p err,
     relay_settles e req k p /\
     (p = Rejected err \/ exists c, p = Fulfilled c /\ malformed c = true) /\
     out = [(Error, [JStr "Chat API error:"; err])]).
Proof.
  intros m out. subst out. unfold trace, Server.post_api_chat, Server.chat_try.
  destruct (nullish (body req)) eqn:Nb.
  { left. split; trivial. destruct (body req); try discriminate; eexists; reflexivity. }
  right. rewrite (Get_run _ _ Nb), bind_ret. fold m.
  destruct (gate m) eqn:G; unfold gate in G.
  2:{ left. apply negb_false_iff in G. rewrite G. auto. }
  right. apply negb_true_iff in G. rewrite G.
  assert (G' : gate m = true) by (unfold gate; now rewrite G).
  pose proof G' as Gs. apply gate_true in Gs. destruct Gs as (s & Hm & Hs).
  unfold provider_availability.
  destruct (require_openai e) as [msg|create] eqn:R.
  { left. split; trivial. exists msg. split; reflexivity. }
  right.
  destruct (OPENAI_API_KEY e) as [k|] eqn:K.
  2:{ left. repeat split; trivial. }
  cbn [of_option truthy].
  destruct (String.eqb k EmptyString) eqn:Ek; cbn [negb].
  { left. repeat split; trivial. }
  right. cbv zeta.
  assert (S : relay_settles e req k (create k (outbound Server2.systemPrompt m))).
  { exists s, create. apply String.eqb_neq in Ek. rewrite Hm. repeat split; trivial. }
  fold (outbound Server.systemPrompt m).
  change Server.systemPrompt with Server2.systemPrompt.
  unfold completions_create. rewrite bind_assoc.
  destruct (create k (outbound Server2.systemPrompt m)) as [c|err];
    cbn -[first_content Server.chat_catch try_catch].
  - destruct (malformed c) eqn:Mc.
    + right. destruct (first_content_malformed c Mc) as [msg F].
      exists k, (Fulfilled c), (TypeError msg). split; trivial. split; [eauto|].
      rewrite F. reflexivity.
    + left. exists k, c. split; trivial. split; trivial.
      rewrite (first_content_well_formed c Mc). reflexivity.
  - right. exists k, (Rejected err), err. split; trivial. split; [auto|].
    destruct (nullish err) eqn:N.
    + destruct err; try discriminate; reflexivity.
    + cbn -[Server.chat_catch]. rewrite (chat_catch_run err N). reflexivity.
Qed.

(** X10.  The second server prints at most one console line for a
    request, and none at level [Log]: it never prints the message or the
    reply.  It prints nothing exactly when it refuses the message of a
    request with a body, or when the upstream call returns a completion
    with a first message. *)
Theorem X10_second_server_console (e : env) (req : request) :
  let out := console_output (trace (Server.post_api_chat e req)) in
  (length out <= 1)%nat /\
  (forall args, ~ In (Log, args) out) /\
  (out = [] <->
   (nullish (body req) = false /\ gate (own (body req) "message") = false) \/
   (exists k c, relay_settles e req k (Fulfilled c) /\ malformed c = false)).
Proof.
  intros out. subst out.
  destruct (Server_console_cases e req)
    as [(Nb & err & ->)|[(Nb & G & ->)|[(G & msg & R & ->)|[(G & A & ->)|
        [(k & c & S & Mc & ->)|(k & p & err & S & Hp & ->)]]]]]; cbn [length In].
  - repeat split; try lia; try (intros args [H|[]]; discriminate); try discriminate.
    intros [[Nb' _]|(k & c & S & _)]; [congruence|].
    apply relay_settles_gate in S. unfold gate in S.
    rewrite (own_nullish _ _ Nb) in S. discriminate.
  - repeat split; try lia; auto.
  - repeat split; try lia; try (intros args [H|[]]; discriminate); try discriminate.
    intros [[_ G']|(k & c & S & _)]; [congruence|].
    apply relay_settles_available in S. unfold provider_availability in S.
    rewrite R in S. discriminate.
  - repeat split; try lia; try (intros args [H|[]]; discriminate); try discriminate.
    intros [[_ G']|(k & c & S & _)]; [congruence|].
    apply relay_settles_available in S. congruence.
  - repeat split; try lia; auto. intros _. right. eauto.
  - repeat split; try lia; try (intros args [H|[]]; discriminate); try discriminate.
    intros [[_ G']|(k' & c' & S' & Mc')].
    + apply relay_settles_gate in S. congruence.
    + destruct (relay_settles_unique _ _ _ _ _ _ S S') as [_ ->].
      destruct Hp as [Hp|(c & Hp & Mc)]; [discriminate|].
      injection Hp as ->. congruence.
Qed.

(** X11.  The two servers answer alike and call upstream alike whenever
    the first one can print what it logs: the message of the request and,
    of a completion with a first message, the content and the token
    count. *)
Theorem X11_servers_agree_on_printable_traffic (e : env) (req : request) :
  printable (own (body req) "message") = true ->
  (forall k c, relay_settles e req k (Fulfilled c) -> malformed c = false ->
     printable (own (first_message c) "content") = true /\
     printable (tokens_or_NA c) = true) ->
  observe (Server2.post_api_chat e req) = observe (Server.post_api_chat e req).
Proof.
  intros P H. apply servers_agree; trivial.
  intros k p c v S -> F.
  destruct (malformed c) eqn:Mc.
  - destruct (first_content_malformed c Mc) as [msg F']. rewrite F' in F. discriminate.
  - rewrite (first_content_well_formed c Mc) in F. injection F as <-.
    now apply (H k c).
Qed.

Lemma hello_settles_inv p k q :
  relay_settles (answering p) hello k q -> q = p.
Proof.
  intros (s & create & _ & _ & R & _ & _ & C). cbn in R. injection R as <-. now symmetry.
Defined.

Lemma X11_hello_alike :
  observe (Server2.post_api_chat (answering (Fulfilled hi_there)) hello) =
  observe (Server.post_api_chat (answering (Fulfilled hi_there)) hello).
Proof.
  apply (X11_servers_agree_on_printable_traffic (answering (Fulfilled hi_there)) hello eq_refl).
  intros k c S _. apply hello_settles_inv in S. injection S as ->. split; reflexivity.
Defined.

Lemma listening_run e port :
  printable port = true ->
  exists port_s,
    ToString port = inr port_s /\
    listening e port =
    ([ Console Log [JStr ("🚀 Nova AI Chatbot API running on port " ++ port_s)];
       Console Log [JStr ("📊 Health check: http://localhost:" ++ port_s ++ "/health")];
       Console Log [JStr ("💬 Chat endpoint: http://localhost:" ++ port_s ++ "/api/chat")] ]
     ++ (if negb (truthy (of_option (OPENAI_API_KEY e)))
         then [ Console Warn [JStr "⚠️  OpenAI API key not configured. Chatbot will respond with fallback messages."];
                Console Log [JStr "📝 To enable full functionality, set OPENAI_API_KEY in your .env file"] ]
         else []),
     inr tt).
Proof.
  unfold printable, listening, subst. destruct (ToString port) as [err|s]; [discriminate|].
  intros _. exists s. split; trivial.
  destruct (negb (truthy (of_option (OPENAI_API_KEY e)))); reflexivity.
Qed.

Lemma PORT_printable env_PORT : printable (PORT env_PORT) = true.
Proof.
  unfold PORT, js_or. destruct env_PORT as [p|]; cbn; [|reflexivity].
  now destruct (String.eqb p EmptyString).
Qed.

(** X12.  The warning of the start-up callback is accurate: with the
    integration module loaded, the callback warns that no API key is
    configured exactly when the chat endpoint answers an accepted request
    with the maintenance message and without an upstream call.  The
    callback itself never throws. *)
Theorem X12_startup_warning (e : env) (env_PORT : option string) (req : request)
    (create : string -> create_params -> settled) :
  gate (own (body req) "message") = true ->
  require_openai e = Module create ->
  let warned :=
    In (Console Warn [JStr "⚠️  OpenAI API key not configured. Chatbot will respond with fallback messages."])
       (fst (listening e (PORT env_PORT))) in
  snd (listening e (PORT env_PORT)) = inr tt /\
  (warned <-> observe (Server2.post_api_chat e req) = (Some no_credential_reply, [])) /\
  (warned <-> observe (Server.post_api_chat e req) = (Some no_credential_reply, [])).
Proof.
  intros G R warned. subst warned.
  destruct (listening_run e (PORT env_PORT) (PORT_printable env_PORT)) as (ps & _ & ->).
  cbn [fst snd]. split; trivial.
  apply gate_true in G. destruct G as (s & Hm & Hs).
  rewrite Server2_reference, Server_inv.
  rewrite !(accepted_reference _ _ _ _ _ Hm Hs), R.
  destruct (OPENAI_API_KEY e) as [k|]; cbn [of_option truthy].
  - destruct (String.eqb k EmptyString); cbn [negb].
    + split; split; trivial; intros _; cbn; auto.
    + split; split; try discriminate; cbn; intros H; exfalso;
        repeat (destruct H as [H|H]; try discriminate); trivial.
  - split; split; trivial; intros _; cbn; auto.
Qed.

Lemma X12_no_key_warned :
  In (Console Warn [JStr "⚠️  OpenAI API key not configured. Chatbot will respond with fallback messages."])
     (fst (listening no_key (PORT None))).
Proof.
  apply (proj1 (proj2 (X12_startup_warning no_key None hello _ eq_refl eq_refl))).
  reflexivity.
Defined.

(** X15.  On a relay success the first server prints, after the lines of
    the incoming request: that it calls the provider, then (after the call)
    the reply and the token count, which reads N/A when the completion has
    no [usage]. *)
Theorem X15_first_server_prints_the_reply
    (e : env) (req : request) (k : string) (c : jsval) (s reply_s tokens_s : string) :
  relay_settles e req k (Fulfilled c) ->
  malformed c = false ->
  own (body req) "message" = JStr s ->
  ToString (own (first_message c) "content") = inr reply_s ->
  ToString (tokens_or_NA c) = inr tokens_s ->
  trace (Server2.post_api_chat e req) =
    incoming_lines e req s ++
    [ Console Log [JStr "🔄 Processing message with OpenAI..."];
      Create k (outbound Server2.systemPrompt (JStr s));
      Console Log [JStr ("🤖 Bot Response: " ++ dq ++ reply_s ++ dq)];
      Console Log [JStr ("📊 Tokens used: " ++ tokens_s)];
      Console Log [JStr (repeat_string "=" 80 ++ nl)] ] /\
  (nullish (own c "usage") = true -> tokens_s = "N/A").
Proof.
  intros S Mc Hm Tr Tt. split.
  2:{ intros U. unfold tokens_or_NA in Tt. rewrite U in Tt. cbn in Tt. congruence. }
  destruct S as (s' & create & Hm' & Hs & R & K & Hk & C).
  rewrite Hm in Hm'. injection Hm' as <-.
  assert (Nb : nullish (body req) = false) by (eapply own_string_body; eauto).
  assert (Nc : nullish c = false).
  { unfold malformed in Mc. now destruct (nullish c). }
  unfold trace, Server2.post_api_chat, Server2.chat_try.
  rewrite (Get_run _ _ Nb), bind_ret, Hm. cbv zeta.
  do 2 log_step. rewrite subst_clientIP_text, bind_ret. log_step.
  unfold subst at 1. cbn [ToString]. rewrite bind_ret. do 2 log_step.
  apply String.eqb_neq in Hs, Hk.
  cbn [truthy typeof negb orb]. rewrite Hs. cbn [negb orb String.eqb Ascii.eqb Bool.eqb].
  rewrite R, K. cbn [of_option truthy]. rewrite Hk. cbn [negb].
  log_step. fold (outbound Server2.systemPrompt (JStr s)).
  unfold completions_create. rewrite bind_assoc, try_catch_emit. cbn [fst snd].
  rewrite C. cbn [await]. rewrite bind_ret, (first_content_well_formed c Mc), bind_ret.
  unfold subst at 1. rewrite Tr, bind_ret. log_step.
  rewrite (usage_total_tokens_run c Nc), bind_ret. fold (tokens_or_NA c).
  unfold subst at 1. rewrite Tt, bind_ret. do 2 log_step.
  reflexivity.
Qed.

Lemma X15_hello_trace :
  trace (Server2.post_api_chat (answering (Fulfilled null_content)) hello) =
    incoming_lines (answering (Fulfilled null_content)) hello "Hello" ++
    [ Console Log [JStr "🔄 Processing message with OpenAI..."];
      Create "sk-test" (outbound Server2.systemPrompt (JStr "Hello"));
      Console Log [JStr ("🤖 Bot Response: " ++ dq ++ "null" ++ dq)];
      Console Log [JStr ("📊 Tokens used: " ++ "N/A")];
      Console Log [JStr (repeat_string "=" 80 ++ nl)] ].
Proof.
  exact (proj1 (X15_first_server_prints_the_reply
                  (answering (Fulfilled null_content)) hello "sk-test" null_content
                  "Hello" "null" "N/A" (hello_settles _) eq_refl eq_refl eq_refl eq_refl)).
Defined.

(** X16.  When the upstream call returns a completion with a first
    message whose content, or whose token count, the first server cannot
    print, the first server answers the generic 500 although the call
    succeeded. *)
Theorem X16_first_server_unprintable_reply (e : env) (req : request) (k : string) (c : jsval) :
  relay_settles e req k (Fulfilled c) ->
  malformed c = false ->
  printable (own (first_message c) "content") && printable (tokens_or_NA c) = false ->
  observe (Server2.post_api_chat e req) =
    (Some processing_error, [(k, outbound Server2.systemPrompt (own (body req) "message"))]).
Proof.
  intros S Mc P. rewrite Server2_reference, (relay_settles_reference _ _ _ _ _ S).
  unfold relay_answer. rewrite (first_content_well_formed c Mc). cbn [snd ret].
  now rewrite P.
Qed.

Lemma X16_shadowed_content :
  observe (Server2.post_api_chat (answering (Fulfilled shadowed_content)) hello) =
    (Some processing_error, [("sk-test", outbound Server2.systemPrompt (JStr "Hello"))]).
Proof.
  exact (X16_first_server_unprintable_reply
           (answering (Fulfilled shadowed_content)) hello "sk-test" shadowed_content
           (hello_settles _) eq_refl eq_refl).
Defined.

(** ** Configuration *)

Lemma or_default_nonzero n d :
  d <> 0%N -> exists neg m, Config.or_default n d = Config.Int neg m /\ m <> 0%N.
Proof.
  intros Hd. destruct n as [|neg [|p]]; cbn; eauto.
  exists neg, (Npos p). split; [reflexivity|discriminate].
Qed.

Lemma digits_zeros k :
  Config.digits 10 (Some 0%N) (repeat_string "0" k) = Some 0%N.
Proof. induction k as [|k IH]; [reflexivity|]. cbn. exact IH. Qed.

Lemma trim_start_keep a r :
  Config.ascii_space (Config.code a) = false ->
  (Config.code a =? 194)%N = false ->
  (forall b c, Config.wide_space (Config.code a) b c = false) ->
  Config.trim_start (String a r) = String a r.
Proof.
  intros H1 H2 H3. cbn [Config.trim_start]. rewrite H1.
  destruct r as [|b r]; [reflexivity|]. rewrite H2. cbn [andb].
  destruct r as [|c r]; [reflexivity|]. now rewrite H3.
Qed.

Lemma trim_start_digit a r :
  (48 <= Config.code a <= 57)%N -> Config.trim_start (String a r) = String a r.
Proof.
  intros H. apply trim_start_keep.
  - unfold Config.ascii_space.
    repeat match goal with
           | |- context [(Config.code a =? ?n)%N] =>
               destruct (N.eqb_spec (Config.code a) n); [lia|]
           end.
    reflexivity.
  - apply N.eqb_neq. lia.
  - intros b c. unfold Config.wide_space.
    repeat match goal with
           | |- context [(Config.code a =? ?n)%N] =>
               destruct (N.eqb_spec (Config.code a) n); [lia|]
           end.
    reflexivity.
Qed.

(** [parseInt] of a string that starts with a decimal digit and not with
    [0x] or [0X]: the digits are read in radix 10. *)
Lemma parseInt_string_decimal a r :
  (48 <= Config.code a <= 57)%N ->
  (Config.code a = 48%N ->
   match r with
   | String b _ => Config.code b <> 120%N /\ Config.code b <> 88%N
   | EmptyString => True
   end) ->
  Config.parseInt_string (String a r) =
  match Config.digits 10 None (String a r) with
  | None => Config.NaN
  | Some n => Config.Int false n
  end.
Proof.
  intros H X. unfold Config.parseInt_string. rewrite (trim_start_digit a r H).
  destruct (N.eqb_spec (Config.code a) 45); [lia|].
  destruct (N.eqb_spec (Config.code a) 43); [lia|].
  destruct r as [|b r]; [reflexivity|].
  destruct (N.eqb_spec (Config.code a) 48) as [E|E]; [|reflexivity].
  destruct (X E) as [X1 X2].
  destruct (N.eqb_spec (Config.code b) 120); [contradiction|].
  destruct (N.eqb_spec (Config.code b) 88); [contradiction|].
  reflexivity.
Qed.

Lemma parseInt_zeros k :
  Config.parseInt (Some (repeat_string "0" (S k))) = Config.Int false 0.
Proof.
  unfold Config.parseInt.
  change (repeat_string "0" (S k)) with (String "0" (repeat_string "0" k)).
  rewrite parseInt_string_decimal.
  - cbn. now rewrite digits_zeros.
  - cbn. lia.
  - intros _. destruct k; cbn; [trivial|]. split; discriminate.
Qed.

(** X13.  The window and the maximum of the rate limiter are never NaN or
    zero: a variable that is unset, empty, or made of zeros only gives the
    default, 900000 ms (15 minutes) and 100 requests, so a limit of 0
    cannot be configured. *)
Theorem X13_limiter_defaults (w m : option string) :
  let unset_or_zero (v : option string) :=
    v = None \/ v = Some EmptyString \/ exists k, v = Some (repeat_string "0" (S k)) in
  (exists neg n, Config.windowMs (Config.limiter w m) = Config.Int neg n /\ n <> 0%N) /\
  (exists neg n, Config.max (Config.limiter w m) = Config.Int neg n /\ n <> 0%N) /\
  (unset_or_zero w -> Config.windowMs (Config.limiter w m) = Config.Int false 900000) /\
  (unset_or_zero m -> Config.max (Config.limiter w m) = Config.Int false 100).
Proof.
  intros unset_or_zero. unfold Config.limiter. cbn [Config.windowMs Config.max].
  split; [apply or_default_nonzero; discriminate|].
  split; [apply or_default_nonzero; discriminate|].
  split.
  - intros [->|[->|[k ->]]]; try reflexivity. now rewrite parseInt_zeros.
  - intros [->|[->|[k ->]]]; try reflexivity. now rewrite parseInt_zeros.
Qed.

Lemma X13_zero_maximum_is_100 :
  Config.max (Config.limiter None (Some "0")) = Config.Int false 100.
Proof.
  apply (proj2 (proj2 (proj2 (X13_limiter_defaults None (Some "0"))))).
  right; right. exists 0%nat. reflexivity.
Defined.

Lemma digits_stop acc rest :
  stops rest -> Config.digits 10 acc rest = acc.
Proof.
  destruct rest as [|c r]; [reflexivity|]. unfold stops, not_a_digit. intros H.
  cbn [Config.digits]. unfold Config.digit_value.
  destruct (N.leb_spec 48 (Config.code c)), (N.leb_spec (Config.code c) 57);
    cbn [andb]; try lia.
  - destruct (N.leb_spec 97 (Config.code c)), (N.leb_spec (Config.code c) 122);
      cbn [andb].
    + destruct (N.ltb_spec (Config.code c - 87) 10); [lia|reflexivity].
    + destruct (N.leb_spec 65 (Config.code c)), (N.leb_spec (Config.code c) 90);
        cbn [andb]; trivial; lia.
    + destruct (N.leb_spec 65 (Config.code c)), (N.leb_spec (Config.code c) 90);
        cbn [andb]; trivial.
      destruct (N.ltb_spec (Config.code c - 55) 10); [lia|reflexivity].
    + destruct (N.leb_spec 65 (Config.code c)), (N.leb_spec (Config.code c) 90);
        cbn [andb]; trivial; lia.
  - destruct (N.leb_spec 97 (Config.code c)), (N.leb_spec (Config.code c) 122);
      cbn [andb]; try lia.
    destruct (N.leb_spec 65 (Config.code c)), (N.leb_spec (Config.code c) 90);
      cbn [andb]; trivial; lia.
Qed.

(** Reading the digits of a decimal numeral. *)
Lemma digits_uint (u : Decimal.uint) (a : N) (rest : string) :
  stops rest ->
  Config.digits 10 (Some a) (DecimalString.NilEmpty.string_of_uint u ++ rest) =
  Some (a * 10 ^ DecimalPos.Unsigned.usize u
        + DecimalPos.Unsigned.of_lu (Decimal.rev u))%N.
Proof.
  intros St. revert a.
  induction u as [|u IH|u IH|u IH|u IH|u IH|u IH|u IH|u IH|u IH|u IH]; intros a;
    cbn [DecimalString.NilEmpty.string_of_uint append DecimalPos.Unsigned.usize].
  1:{ rewrite (digits_stop _ _ St). cbn. f_equal. lia. }
  all: cbn [Config.digits]; change (Config.digit_value (Config.code _)) with (Some 0%N)
       || idtac.
  all: unfold Decimal.rev; cbn [Decimal.revapp];
       rewrite DecimalPos.Unsigned.of_lu_revapp; cbn [DecimalPos.Unsigned.of_lu];
       fold (Decimal.rev u); rewrite N.pow_succ_r'.
  all: match goal with
       | |- context [Config.digit_value (Config.code ?c)] =>
           let v := eval vm_compute in (Config.digit_value (Config.code c)) in
           change (Config.digit_value (Config.code c)) with v
       | _ => idtac
       end; cbn [N.ltb N.compare Pos.compare Pos.compare_cont];
       rewrite IH; f_equal; lia.
Qed.

Lemma nzhead_not_D0 u u' : Decimal.nzhead u <> Decimal.D0 u'.
Proof. induction u; cbn; trivial; discriminate. Qed.

(** The numeral of a positive number starts with a digit from 1 to 9. *)
Lemma to_uint_head p :
  match Pos.to_uint p with
  | Decimal.Nil | Decimal.D0 _ => False
  | _ => True
  end.
Proof.
  pose proof (DecimalPos.Unsigned.to_of (Pos.to_uint p)) as H.
  rewrite DecimalPos.Unsigned.of_to in H. cbn [N.to_uint] in H.
  pose proof (DecimalPos.Unsigned.to_uint_nonzero p) as Z.
  pose proof (nzhead_not_D0 (Pos.to_uint p)) as D.
  unfold Decimal.unorm in H.
  destruct (Decimal.nzhead (Pos.to_uint p)) eqn:E; rewrite H; trivial.
  - now apply Z.
  - now apply (D u).
Qed.

Lemma digits_first c r d :
  Config.digit_value (Config.code c) = Some d -> (d <? 10)%N = true ->
  Config.digits 10 None (String c r) = Config.digits 10 (Some 0%N) (String c r).
Proof. intros H L. cbn [Config.digits]. now rewrite H, L. Qed.

Lemma parseInt_numeral (n : N) (rest : string) :
  (0 < n)%N -> stops rest ->
  Config.parseInt (Some (numeral n ++ rest)%string) = Config.Int false n.
Proof.
  intros Hn St. destruct n as [|p]; [lia|].
  unfold Config.parseInt, numeral. cbn [N.to_uint].
  pose proof (to_uint_head p) as Hd.
  pose proof (DecimalPos.Unsigned.of_to p) as V.
  rewrite DecimalPos.Unsigned.of_uint_alt in V.
  pose proof (digits_uint (Pos.to_uint p) 0 rest St) as D.
  rewrite V in D. cbn [N.mul N.add] in D.
  destruct (Pos.to_uint p) as [|u|u|u|u|u|u|u|u|u|u]; try contradiction;
    cbn [DecimalString.NilZero.string_of_uint DecimalString.NilEmpty.string_of_uint append]
      in *;
    (rewrite parseInt_string_decimal;
     [ erewrite digits_first; [rewrite D; reflexivity | reflexivity | reflexivity]
     | cbn; lia
     | cbn; discriminate ]).
Qed.

(** X14.  A variable set to the decimal numeral of a positive integer
    below 2^53 (where the double that [parseInt] gives is the integer
    itself), followed by anything that does not go on with a digit (a unit,
    say, as in 15min), configures that integer as the window or the maximum
    of the rate limiter. *)
Theorem X14_limiter_reads_numerals (n : N) (rest : string) (other : option string) :
  (0 < n < 2 ^ 53)%N ->
  stops rest ->
  Config.windowMs (Config.limiter (Some (numeral n ++ rest)%string) other) = Config.Int false n /\
  Config.max (Config.limiter other (Some (numeral n ++ rest)%string)) = Config.Int false n.
Proof.
  intros [Hn _] St. unfold Config.limiter. cbn [Config.windowMs Config.max].
  rewrite (parseInt_numeral n rest Hn St).
  destruct n; [lia|]. split; reflexivity.
Qed.

Lemma X14_one_minute :
  Config.windowMs (Config.limiter (Some "60000ms") None) = Config.Int false 60000 /\
  Config.max (Config.limiter None (Some "60000ms")) = Config.Int false 60000.
Proof.
  apply (X14_limiter_reads_numerals 60000 "ms" None).
  - split; reflexivity.
  - right. reflexivity.
Defined.
